(** * CorbaAccess: discovery of Orocos control tasks through the CORBA
    naming service (corba_access.hh, corba_access.cc).

    The C++ class keeps two process-wide handles ([orb], [rootContext]) and
    talks to the ORB runtime, the naming service and the remote tasks.  The
    embedding below keeps that shape:

    - the two static members and the lines written to [cout]/[cerr] form the
      state of a small state-and-exception monad [M];
    - everything the client does not implement (the ORB, the naming service,
      the remote task servers) is an explicit record of answers, [Remote];
    - [try]/[catch] is a combinator taking the handlers in source order. *)

From Stdlib Require Import String List Bool Arith Lia.
Import ListNotations.
Local Open Scope string_scope.
Local Open Scope list_scope.

Set Implicit Arguments.

(** ** CORBA: object references and exceptions *)

Module CORBA.

(** A [T_var] holds either the nil reference or a reference to an object;
    objects are told apart by a number. *)
Definition ORB_var := option nat.
Definition Object_var := option nat.

(** [CORBA::is_nil]. *)
Definition is_nil {R : Type} (p : option R) : bool :=
  match p with
  | None => true
  | Some _ => false
  end.

(** [CORBA::Exception] and its subclasses, as far as the handlers of
    corba_access.cc tell them apart: system exceptions, the user exception
    [CosNaming::NamingContext::NotFound], and any other user exception. *)
Inductive Exception : Type :=
| SystemException (name : string)
| NamingContext_NotFound
| UserException (name : string).

(** [e._name()]. *)
Definition _name (e : Exception) : string :=
  match e with
  | SystemException n => n
  | NamingContext_NotFound => "NotFound"
  | UserException n => n
  end.

End CORBA.

(** ** CosNaming: names and bindings *)

Module CosNaming.

Record NameComponent : Type := { id : string; kind : string }.

Definition Name := list NameComponent.

Inductive BindingType : Type := nobject | ncontext.

Record Binding : Type :=
  { binding_name : Name; binding_type : BindingType }.

Definition BindingList := list Binding.

Definition NamingContext_var := option nat.
Definition BindingIterator_var := option nat.

(** [Name n; n.length(1); n[0].id = string_dup(a)] and the two-component
    variant: [length(k)] default-constructs the components, so [kind] is the
    empty string. *)
Definition name1 (a : string) : Name := [ {| id := a; kind := "" |} ].
Definition name2 (a b : string) : Name :=
  [ {| id := a; kind := "" |}; {| id := b; kind := "" |} ].

End CosNaming.

Module RTT_Corba.
Definition ControlTask_var := option nat.
End RTT_Corba.

(** ** C++ exceptions *)

(** [struct IllegalServer : std::exception { std::string reason; ... }]. *)
Record IllegalServer_t : Type := { reason : string }.

(** [IllegalServer::IllegalServer()]. *)
Definition IllegalServer : IllegalServer_t :=
  {| reason := "This server does not exist or has the wrong type." |}.

(** [IllegalServer::what()]. *)
Definition what (e : IllegalServer_t) : string := reason e.

(** What a [throw] can carry here: a CORBA exception, an [IllegalServer]
    (which derives from [std::exception], not from [CORBA::Exception]), or
    any other C++ exception, kept by a description. *)
Inductive exn : Type :=
| CORBA_Exception (e : CORBA.Exception)
| IllegalServer_exn (e : IllegalServer_t)
| other_exception (description : string).

(** Does [catch (CORBA::Exception &)] match? *)
Definition is_CORBA_Exception (e : exn) : bool :=
  match e with
  | CORBA_Exception _ => true
  | _ => false
  end.

(** Does [catch (CosNaming::NamingContext::NotFound)] match? *)
Definition is_NotFound (e : exn) : bool :=
  match e with
  | CORBA_Exception CORBA.NamingContext_NotFound => true
  | _ => false
  end.

(** [s.c_str()] read as a C string: a [std::string] may hold NUL characters,
    and what a [const char*] reader such as [CORBA::string_dup] sees of it
    ends before the first one.  (Strings handed out by the ORB are C strings
    already.) *)
Fixpoint c_str (s : string) : string :=
  match s with
  | EmptyString => EmptyString
  | String c rest =>
      if Ascii.eqb c Ascii.zero then EmptyString else String c (c_str rest)
  end.

(** ** The world outside the client *)

(** The answer of one call into the ORB or to a remote object. *)
Inductive outcome (A : Type) : Type :=
| Returns (a : A)
| Throws (e : exn).
Arguments Throws {A} e.

(** The ORB runtime, the naming service and the task servers.  Each field
    answers one operation on one (non-nil) reference.  A binding iterator is a
    stateful remote object: [next_n it k how_many] is its answer to the call
    made after [k] earlier calls.  A [Remote] holds the answers for the time
    of one call of a member function; two calls may meet different ones. *)
Record Remote : Type :=
  { ORB_init : list string -> string -> outcome CORBA.ORB_var;
    resolve_initial_references : nat -> string -> outcome CORBA.Object_var;
    ORB_destroy : nat -> outcome unit;
    NamingContext_narrow : nat -> outcome CosNaming.NamingContext_var;
    resolve : nat -> CosNaming.Name -> outcome CORBA.Object_var;
    list_bindings :
      nat -> nat -> outcome (CosNaming.BindingList * CosNaming.BindingIterator_var);
    NamingContext_destroy : nat -> outcome unit;
    next_n : nat -> nat -> nat -> outcome (bool * CosNaming.BindingList);
    ControlTask_narrow : nat -> outcome RTT_Corba.ControlTask_var;
    getName : nat -> outcome string }.

(** omniORB4 (the ORB named in [ORB_init]) answers an operation invoked
    through a nil reference by throwing the system exception INV_OBJREF, and
    an index past the end of a sequence by throwing BAD_PARAM. *)
Definition invoked_nil : exn :=
  CORBA_Exception (CORBA.SystemException "INV_OBJREF").
Definition bound_check_error : exn :=
  CORBA_Exception (CORBA.SystemException "BAD_PARAM").

(** [target->op(...)]. *)
Definition invoke {A : Type} (target : option nat) (op : nat -> outcome A)
  : outcome A :=
  match target with
  | None => Throws invoked_nil
  | Some r => op r
  end.

(** [T::_narrow(obj)]: nil narrows to nil without asking anybody. *)
Definition _narrow (narrow : nat -> outcome (option nat)) (obj : CORBA.Object_var)
  : outcome (option nat) :=
  match obj with
  | None => Returns None
  | Some r => narrow r
  end.

(** ** The state of the process and the monad of the member functions *)

Inductive stream : Type := cout | cerr.

(** The static members of [CorbaAccess] and the lines written so far. *)
Record process : Type :=
  { orb : CORBA.ORB_var;
    rootContext : CosNaming.NamingContext_var;
    output : list (stream * string) }.

(** Static members are default-constructed: both handles nil. *)
Definition startup : process :=
  {| orb := None; rootContext := None; output := [] |}.

Inductive result (A : Type) : Type :=
| Ret (a : A)
| Raise (e : exn)
| OutOfFuel.
Arguments Raise {A} e.
Arguments OutOfFuel {A}.

(** A computation over a mutable state [S]: the process for the member
    functions, a local variable for a block that updates one. *)
Definition M (S A : Type) : Type := S -> result A * S.

Definition ret {S A : Type} (a : A) : M S A := fun s => (Ret a, s).

Definition throw {S A : Type} (e : exn) : M S A := fun s => (Raise e, s).

Definition out_of_fuel {S A : Type} : M S A := fun s => (OutOfFuel, s).

(** Sequencing: what was assigned and written before a [throw] stays. *)
Definition bind {S A B : Type} (m : M S A) (k : A -> M S B) : M S B :=
  fun s =>
    match m s with
    | (Ret a, s') => k a s'
    | (Raise e, s') => (Raise e, s')
    | (OutOfFuel, s') => (OutOfFuel, s')
    end.

Declare Scope cxx_scope.
Delimit Scope cxx_scope with cxx.
Notation "x <- m ;; k" := (bind m (fun x => k))
  (at level 61, m at next level, right associativity) : cxx_scope.
Notation "m ;; k" := (bind m (fun _ => k))
  (at level 61, right associativity) : cxx_scope.
Local Open Scope cxx_scope.

(** A call that leaves the client. *)
Definition call {S A : Type} (o : outcome A) : M S A :=
  fun s =>
    match o with
    | Returns a => (Ret a, s)
    | Throws e => (Raise e, s)
    end.

(** [try { body } catch ... ]: [handlers e] is the first handler whose
    parameter type matches [e], if any.  An exception thrown by a handler is
    not seen by the other handlers of the same [try]. *)
Definition try_catch {S A : Type} (body : M S A) (handlers : exn -> option (M S A))
  : M S A :=
  fun s =>
    match body s with
    | (Raise e, s') =>
        match handlers e with
        | Some h => h s'
        | None => (Raise e, s')
        end
    | r => r
    end.

(** The process after some more lines were written. *)
Definition log (p : process) (lines : list (stream * string)) : process :=
  {| orb := orb p; rootContext := rootContext p;
     output := output p ++ lines |}.

(** [s << text << endl]. *)
Definition put (s : stream) (text : string) : M process unit :=
  fun p => (Ret tt, log p [(s, text)]).

Definition get_orb : M process CORBA.ORB_var := fun p => (Ret (orb p), p).
Definition get_rootContext : M process CosNaming.NamingContext_var :=
  fun p => (Ret (rootContext p), p).

Definition set_orb (o : CORBA.ORB_var) : M process unit :=
  fun p =>
    (Ret tt, {| orb := o; rootContext := rootContext p; output := output p |}).

Definition set_rootContext (c : CosNaming.NamingContext_var) : M process unit :=
  fun p =>
    (Ret tt, {| orb := orb p; rootContext := c; output := output p |}).

(** ** The member functions of [CorbaAccess] *)

Module CorbaAccess.
Section Members.

Variable env : Remote.

(** [bool CorbaAccess::InitOrb(int argc, char* argv[])].  The handler falls
    through to the final [return false].  [argv] is what [ORB_init] is given;
    the options the ORB strips from it are not followed. *)
Definition InitOrb (argv : list string) : M process bool :=
  o0 <- get_orb ;;
  if negb (CORBA.is_nil o0) then ret false
  else
    try_catch
      (o <- call (ORB_init env argv "omniORB4") ;;
       set_orb o ;;
       the_orb <- get_orb ;;
       rootObj <- call (invoke the_orb
                          (fun r => resolve_initial_references env r "NameService")) ;;
       c <- call (_narrow (NamingContext_narrow env) rootObj) ;;
       set_rootContext c ;;
       if CORBA.is_nil rootObj then
         put cerr "CorbaAccess could not acquire NameService." ;;
         throw (IllegalServer_exn IllegalServer)
       else
         put cout "found CORBA NameService." ;;
         ret true)
      (fun e =>
         match e with
         | CORBA_Exception c =>
             Some (put cerr "Orb Init : CORBA exception raised!" ;;
                   put cerr (CORBA._name c) ;;
                   ret false)
         | _ => None
         end).

(** [void CorbaAccess::DestroyOrb()]. *)
Definition DestroyOrb : M process unit :=
  try_catch
    (root <- get_rootContext ;;
     call (invoke root (NamingContext_destroy env)) ;;
     the_orb <- get_orb ;;
     call (invoke the_orb (ORB_destroy env)) ;;
     put cerr "Orb destroyed.")
    (fun e =>
       match e with
       | CORBA_Exception c =>
           Some (put cerr "Orb destruction : CORBA exception raised!" ;;
                 put cerr (CORBA._name c))
       | _ => None
       end).

Definition getOrb : M process CORBA.ORB_var := get_orb.
Definition getRootContext : M process CosNaming.NamingContext_var :=
  get_rootContext.

(** [names.push_back(s)] on the local list of [knownTasks]. *)
Definition push_back (s : string) : M (list string) unit :=
  fun names => (Ret tt, names ++ [s]).

(** [seq[0]] on a [CosNaming::Name]. *)
Definition first_component (n : CosNaming.Name) : outcome CosNaming.NameComponent :=
  match n with
  | c :: _ => Returns c
  | [] => Throws bound_check_error
  end.

(** [for (int i = 0; i < binding_list.in().length(); ++i)
       names.push_back(binding_list.in()[i].binding_name[0].id.in());] *)
Fixpoint push_back_ids (binding_list : CosNaming.BindingList)
  : M (list string) unit :=
  match binding_list with
  | [] => ret tt
  | b :: rest =>
      c <- call (first_component (CosNaming.binding_name b)) ;;
      push_back (CosNaming.id c) ;;
      push_back_ids rest
  end.

(** [while (binding_it->next_n(10, binding_list)) { for ... }]; [k] counts
    the calls already made on the iterator, [fuel] bounds the number of
    iterations the model follows. *)
Fixpoint next_n_loop (fuel : nat) (binding_it : CosNaming.BindingIterator_var)
  (k : nat) : M (list string) unit :=
  match fuel with
  | 0 => out_of_fuel
  | S fuel' =>
      r <- call (invoke binding_it (fun it => next_n env it k 10)) ;;
      if fst r then
        push_back_ids (snd r) ;;
        next_n_loop fuel' binding_it (S k)
      else ret tt
  end.

(** The [try] block of [knownTasks] and its handler, run on the local
    variable [names]. *)
Definition knownTasks_try (fuel : nat) (root : CosNaming.NamingContext_var)
  : M (list string) unit :=
  try_catch
    (control_tasks_var <-
       call (invoke root (fun r => resolve env r (CosNaming.name1 "ControlTasks"))) ;;
     control_tasks <- call (_narrow (NamingContext_narrow env) control_tasks_var) ;;
     listed <- call (invoke control_tasks (fun r => list_bindings env r 0)) ;;
     next_n_loop fuel (snd listed) 0)
    (fun e => if is_NotFound e then Some (ret tt) else None).

(** [list<string> CorbaAccess::knownTasks()]: [names] starts empty and is
    returned when the [try] statement completes. *)
Definition knownTasks (fuel : nat) : M process (list string) :=
  fun p =>
    match knownTasks_try fuel (rootContext p) [] with
    | (Ret _, names) => (Ret names, p)
    | (Raise e, _) => (Raise e, p)
    | (OutOfFuel, _) => (OutOfFuel, p)
    end.

(** [RTT::Corba::ControlTask_var CorbaAccess::findByName(std::string const&)].
    The registry is asked for [string_dup(name.c_str())]; the diagnostic is
    built from the [std::string] itself. *)
Definition findByName (name : string) : M process RTT_Corba.ControlTask_var :=
  try_catch
    (root <- get_rootContext ;;
     task_object <-
       call (invoke root
               (fun r =>
                  resolve env r (CosNaming.name2 "ControlTasks" (c_str name)))) ;;
     mtask <- call (_narrow (ControlTask_narrow env) task_object) ;;
     if CORBA.is_nil mtask then
       put cerr ("Failed to acquire ControlTaskServer '" ++ name ++ "'.") ;;
       throw (IllegalServer_exn IllegalServer)
     else
       nm <- call (invoke mtask (getName env)) ;;
       put cout ("Successfully connected to ControlTaskServer '" ++ nm ++ "'.") ;;
       ret mtask)
    (fun e =>
       match e with
       | CORBA_Exception c =>
           Some (put cerr "CORBA exception raised when resolving Object !" ;;
                 put cerr (CORBA._name c) ;;
                 throw (IllegalServer_exn IllegalServer))
       | _ =>
           Some (put cerr "Unknown Exception in CorbaAccess construction!" ;;
                 throw e)
       end).

End Members.
End CorbaAccess.

(** ** The driver (main.cpp) *)

Module Driver.
Section Main.

Variable env : Remote.

(** [getTaskState] of the remote [ControlTask] interface (ControlTask.hh),
    with its result as [operator<<] prints it. *)
Variable getTaskState : nat -> outcome string.

(** The body of the [for] loop: [findByName] on the current name, then
    [getTaskState] on the handle it returned, printed on [cout]. *)
Definition print_state (name : string) : M process unit :=
  task <- CorbaAccess.findByName env name ;;
  state <- call (invoke task getTaskState) ;;
  put cout state.

(** [for (list<string>::iterator it = names.begin(); it != names.end(); ++it)]. *)
Fixpoint for_each_name (names : list string) : M process unit :=
  match names with
  | [] => ret tt
  | name :: rest => print_state name ;; for_each_name rest
  end.

(** The [try] block of [main]. *)
Definition main_try (fuel : nat) : M process unit :=
  names <- CorbaAccess.knownTasks env fuel ;;
  for_each_name names.

(** [int main(int argc, char** argv)]: the value of [InitOrb] is dropped,
    the handler destroys the ORB and rethrows, and the ORB is destroyed once
    more on the way out of a [try] that completed.  [Ret tt] is the normal
    return, [Raise e] an exception leaving [main]. *)
Definition main (fuel : nat) (argv : list string) : M process unit :=
  CorbaAccess.InitOrb env argv ;;
  try_catch (main_try fuel)
    (fun e => Some (CorbaAccess.DestroyOrb env ;; throw e)) ;;
  CorbaAccess.DestroyOrb env.

End Main.
End Driver.

(** ** Vocabulary of the statements *)

Unset Implicit Arguments.

(** The first segment of a binding's name, as [knownTasks] records it. *)
Definition first_segment (b : CosNaming.Binding) : string :=
  match CosNaming.binding_name b with
  | c :: _ => CosNaming.id c
  | [] => ""
  end.

(** A binding whose name has at least one component (the naming service
    lists bindings under one-component names). *)
Definition named (b : CosNaming.Binding) : Prop :=
  CosNaming.binding_name b <> [].

(** From its call number [k] on, the iterator [it] hands out the pages
    [pages], one per call and each with [true], and then answers [false]. *)
Fixpoint delivers (env : Remote) (it k : nat) (pages : list CosNaming.BindingList)
  : Prop :=
  match pages with
  | [] => exists rest, next_n env it k 10 = Returns (false, rest)
  | page :: more =>
      next_n env it k 10 = Returns (true, page) /\ delivers env it (S k) more
  end.

(** [ControlTasks] resolves, from the root context of [p], to the naming
    context [ct]. *)
Definition ControlTasks_is (env : Remote) (p : process) (ct : nat) : Prop :=
  exists root obj,
    rootContext p = Some root /\
    resolve env root (CosNaming.name1 "ControlTasks") = Returns obj /\
    _narrow (NamingContext_narrow env) obj = Returns (Some ct).

(** The context [ct] lists its bindings through an iterator that splits them
    into [pages]. *)
Definition lists_in_pages (env : Remote) (ct : nat)
  (pages : list CosNaming.BindingList) : Prop :=
  exists immediate it,
    list_bindings env ct 0 = Returns (immediate, Some it) /\
    delivers env it 0 pages.

(** The registry has no [ControlTasks] entry: resolving it from the root
    context of [p] raises [NotFound]. *)
Definition ControlTasks_missing (env : Remote) (p : process) : Prop :=
  exists root,
    rootContext p = Some root /\
    resolve env root (CosNaming.name1 "ControlTasks")
    = Throws (CORBA_Exception CORBA.NamingContext_NotFound).

(** What [findByName name] asks the registry: the two-component name whose
    second component is [name] as a C string. *)
Definition lookup (env : Remote) (p : process) (name : string)
  : outcome CORBA.Object_var :=
  invoke (rootContext p)
    (fun r => resolve env r (CosNaming.name2 "ControlTasks" (c_str name))).

(** [name] does not resolve under [ControlTasks]: the lookup ends in a CORBA
    exception ([NotFound] when the entry is absent). *)
Definition does_not_resolve (env : Remote) (p : process) (name : string) : Prop :=
  exists c, lookup env p name = Throws (CORBA_Exception c).

(** [name] resolves, but the object does not narrow to a [ControlTask]. *)
Definition narrows_to_nil (env : Remote) (p : process) (name : string) : Prop :=
  exists obj,
    lookup env p name = Returns obj /\
    _narrow (ControlTask_narrow env) obj = Returns None.

(** The exception [e] is raised by one of the calls [findByName name] makes:
    the lookup, the narrowing, or [getName] on the narrowed handle. *)
Definition raised_during (env : Remote) (p : process) (name : string) (e : exn)
  : Prop :=
  lookup env p name = Throws e \/
  exists obj,
    lookup env p name = Returns obj /\
    (_narrow (ControlTask_narrow env) obj = Throws e \/
     exists t,
       _narrow (ControlTask_narrow env) obj = Returns (Some t) /\
       getName env t = Throws e).

(** The two handlers of [findByName], applied to a caught exception. *)
Definition findByName_catch (e : exn) (p : process)
  : result RTT_Corba.ControlTask_var * process :=
  match e with
  | CORBA_Exception c =>
      (Raise (IllegalServer_exn IllegalServer),
       log p [(cerr, "CORBA exception raised when resolving Object !");
              (cerr, CORBA._name c)])
  | _ => (Raise e, log p [(cerr, "Unknown Exception in CorbaAccess construction!")])
  end.

(** An answer that is a return or a CORBA exception. *)
Definition transport_level {A : Type} (o : outcome A) : Prop :=
  match o with
  | Returns _ => True
  | Throws e => is_CORBA_Exception e = true
  end.

(** The states a process goes through: it starts with both handles nil and
    calls the member functions, against whatever the outside answers. *)
Inductive reachable : process -> Prop :=
| reach_startup : reachable startup
| reach_InitOrb env argv p r p' :
    reachable p -> CorbaAccess.InitOrb env argv p = (r, p') -> reachable p'
| reach_DestroyOrb env p r p' :
    reachable p -> CorbaAccess.DestroyOrb env p = (r, p') -> reachable p'
| reach_knownTasks env fuel p r p' :
    reachable p -> CorbaAccess.knownTasks env fuel p = (r, p') -> reachable p'
| reach_findByName env name p r p' :
    reachable p -> CorbaAccess.findByName env name p = (r, p') -> reachable p'.

(** From its call number [k] on, the iterator [it] hands out [pages], one
    per call and each with [true], and answers the next call with [final]. *)
Fixpoint delivers_then (env : Remote) (it k : nat)
  (pages : list CosNaming.BindingList)
  (final : outcome (bool * CosNaming.BindingList)) : Prop :=
  match pages with
  | [] => next_n env it k 10 = final
  | page :: more =>
      next_n env it k 10 = Returns (true, page) /\
      delivers_then env it (S k) more final
  end.

(** The calls [InitOrb] makes once past its guard, up to the first one that
    throws [e]; [assigned] is what [orb] holds at that point. *)
Definition InitOrb_raised (env : Remote) (argv : list string) (p : process)
  (e : exn) (assigned : CORBA.ORB_var) : Prop :=
  (ORB_init env argv "omniORB4" = Throws e /\ assigned = orb p) \/
  (ORB_init env argv "omniORB4" = Returns assigned /\
   (invoke assigned (fun r => resolve_initial_references env r "NameService")
    = Throws e \/
    exists rootObj,
      invoke assigned (fun r => resolve_initial_references env r "NameService")
      = Returns rootObj /\
      _narrow (NamingContext_narrow env) rootObj = Throws e)).

(** [knownTasks] has no naming context to list: the root context is nil,
    or [ControlTasks] resolves to nothing that narrows to a naming context,
    or the context hands back a nil iterator. *)
Definition nothing_to_list (env : Remote) (p : process) : Prop :=
  rootContext p = None \/
  (exists root obj,
      rootContext p = Some root /\
      resolve env root (CosNaming.name1 "ControlTasks") = Returns obj /\
      _narrow (NamingContext_narrow env) obj = Returns None) \/
  (exists ct immediate,
      ControlTasks_is env p ct /\
      list_bindings env ct 0 = Returns (immediate, None)).

(** The exception [e] is raised by one of the calls of [knownTasks] that
    come before the loop. *)
Definition raised_before_loop (env : Remote) (p : process) (e : exn) : Prop :=
  invoke (rootContext p) (fun r => resolve env r (CosNaming.name1 "ControlTasks"))
  = Throws e \/
  exists obj,
    invoke (rootContext p) (fun r => resolve env r (CosNaming.name1 "ControlTasks"))
    = Returns obj /\
    (_narrow (NamingContext_narrow env) obj = Throws e \/
     exists ct,
       _narrow (NamingContext_narrow env) obj = Returns (Some ct) /\
       list_bindings env ct 0 = Throws e).

(** The task bound under [name] answers the driver: it resolves, narrows,
    reports the name [fst report] and the state [snd report]. *)
Definition task_answers (env : Remote) (getTaskState : nat -> outcome string)
  (p : process) (name : string) (report : string * string) : Prop :=
  exists obj t,
    lookup env p name = Returns obj /\
    _narrow (ControlTask_narrow env) obj = Returns (Some t) /\
    getName env t = Returns (fst report) /\
    getTaskState t = Returns (snd report).

(** The two lines the driver writes for a task that answers. *)
Definition report_lines (report : string * string) : list (stream * string) :=
  [(cout,
    ("Successfully connected to ControlTaskServer '" ++ fst report ++ "'.")%string);
   (cout, snd report)].

(** What [main] makes of the way its [try] block ended. *)
Definition exit_of (r : result unit) : result unit :=
  match r with
  | Ret _ => Ret tt
  | Raise e => Raise e
  | OutOfFuel => OutOfFuel
  end.

(** The handler of [InitOrb], applied to an exception leaving its [try]
    block in the state [p]. *)
Definition InitOrb_catch (e : exn) (p : process) : result bool * process :=
  match e with
  | CORBA_Exception c =>
      (Ret false,
       log p [(cerr, "Orb Init : CORBA exception raised!"); (cerr, CORBA._name c)])
  | _ => (Raise e, p)
  end.

(** The handler of [DestroyOrb], applied to an exception leaving its [try]
    block in the state [p]. *)
Definition DestroyOrb_catch (e : exn) (p : process) : result unit * process :=
  match e with
  | CORBA_Exception c =>
      (Ret tt,
       log p [(cerr, "Orb destruction : CORBA exception raised!");
              (cerr, CORBA._name c)])
  | _ => (Raise e, p)
  end.

(** The process [p] once [InitOrb] has succeeded with the runtime [o] and
    the root context [root]. *)
Definition initialised (p : process) (o root : nat) : process :=
  log {| orb := Some o; rootContext := Some root; output := output p |}
    [(cout, "found CORBA NameService.")].

(** ** A registry to run the functions on *)

Module Sample.

(** Object numbers. *)
Definition the_orb : nat := 0.
Definition name_service : nat := 1.
Definition control_tasks : nat := 2.
Definition iterator : nat := 3.
Definition alpha : nat := 10.
Definition beta : nat := 11.
Definition gamma : nat := 12.

Definition task_binding (n : string) : CosNaming.Binding :=
  {| CosNaming.binding_name := CosNaming.name1 n;
     CosNaming.binding_type := CosNaming.nobject |}.

(** [n] bindings named "A", "B", ... *)
Definition letter (i : nat) : string :=
  String (Ascii.ascii_of_nat (65 + i)) EmptyString.
Definition bindings (n : nat) : CosNaming.BindingList :=
  map (fun i => task_binding (letter i)) (seq 0 n).

(** [l] cut into pages of [size] elements (the last one may be shorter). *)
Fixpoint pages_of {A : Type} (fuel size : nat) (l : list A) : list (list A) :=
  match fuel, l with
  | 0, _ | _, [] => []
  | S fuel', _ => firstn size l :: pages_of fuel' size (skipn size l)
  end.

(** A naming service with [ControlTasks/alpha], [ControlTasks/beta] (control
    tasks) and [ControlTasks/gamma] (an object of another type); the
    iterator of [ControlTasks] hands out [pages]. *)
Definition registry (pages : list CosNaming.BindingList) : Remote :=
  {| ORB_init := fun _ _ => Returns (Some the_orb);
     resolve_initial_references :=
       fun _ what =>
         if String.eqb what "NameService" then Returns (Some name_service)
         else Throws (CORBA_Exception (CORBA.UserException "InvalidName"));
     ORB_destroy := fun _ => Returns tt;
     NamingContext_narrow :=
       fun r => Returns (if Nat.eqb r name_service || Nat.eqb r control_tasks
                         then Some r else None);
     resolve :=
       fun _ n =>
         match map CosNaming.id n with
         | ["ControlTasks"] => Returns (Some control_tasks)
         | ["ControlTasks"; "alpha"] => Returns (Some alpha)
         | ["ControlTasks"; "beta"] => Returns (Some beta)
         | ["ControlTasks"; "gamma"] => Returns (Some gamma)
         | _ => Throws (CORBA_Exception CORBA.NamingContext_NotFound)
         end;
     list_bindings := fun _ _ => Returns ([], Some iterator);
     NamingContext_destroy :=
       fun _ => Throws (CORBA_Exception (CORBA.UserException "NotEmpty"));
     next_n :=
       fun _ k _ =>
         match nth_error pages k with
         | Some page => Returns (true, page)
         | None => Returns (false, [])
         end;
     ControlTask_narrow :=
       fun r => Returns (if Nat.eqb r alpha || Nat.eqb r beta then Some r else None);
     getName :=
       fun r => Returns (if Nat.eqb r alpha then "alpha" else "beta") |}.

(** The same registry without a [ControlTasks] entry. *)
Definition bare_registry : Remote :=
  {| ORB_init := ORB_init (registry []);
     resolve_initial_references := resolve_initial_references (registry []);
     ORB_destroy := ORB_destroy (registry []);
     NamingContext_narrow := NamingContext_narrow (registry []);
     resolve := fun _ _ => Throws (CORBA_Exception CORBA.NamingContext_NotFound);
     list_bindings := list_bindings (registry []);
     NamingContext_destroy := NamingContext_destroy (registry []);
     next_n := next_n (registry []);
     ControlTask_narrow := ControlTask_narrow (registry []);
     getName := getName (registry []) |}.

(** An ORB that starts, with [what] as the answer for the naming service. *)
Definition orb_only (what : outcome CORBA.Object_var) : Remote :=
  {| ORB_init := ORB_init (registry []);
     resolve_initial_references := fun _ _ => what;
     ORB_destroy := ORB_destroy (registry []);
     NamingContext_narrow := fun _ => Returns None;
     resolve := resolve bare_registry;
     list_bindings := list_bindings (registry []);
     NamingContext_destroy := NamingContext_destroy (registry []);
     next_n := next_n (registry []);
     ControlTask_narrow := ControlTask_narrow (registry []);
     getName := getName (registry []) |}.

(** The registry of [registry []] whose lookups fail with a C++ exception
    that is not a CORBA one. *)
Definition out_of_memory : Remote :=
  {| ORB_init := ORB_init (registry []);
     resolve_initial_references := resolve_initial_references (registry []);
     ORB_destroy := ORB_destroy (registry []);
     NamingContext_narrow := NamingContext_narrow (registry []);
     resolve := fun _ _ => Throws (other_exception "std::bad_alloc");
     list_bindings := list_bindings (registry []);
     NamingContext_destroy := NamingContext_destroy (registry []);
     next_n := next_n (registry []);
     ControlTask_narrow := ControlTask_narrow (registry []);
     getName := getName (registry []) |}.

(** The runtime starts, the naming service cannot be reached. *)
Definition no_name_service : Remote :=
  orb_only (Throws (CORBA_Exception (CORBA.SystemException "TRANSIENT"))).

(** The process after [InitOrb] has failed against [no_name_service]. *)
Definition half_started : process :=
  {| orb := Some the_orb; rootContext := None;
     output := [(cerr, "Orb Init : CORBA exception raised!");
                (cerr, "TRANSIENT")] |}.

(** The registry of [registry []], whose empty [ControlTasks] context
    answers [list] with no binding and a nil iterator. *)
Definition empty_context : Remote :=
  {| ORB_init := ORB_init (registry []);
     resolve_initial_references := resolve_initial_references (registry []);
     ORB_destroy := ORB_destroy (registry []);
     NamingContext_narrow := NamingContext_narrow (registry []);
     resolve := resolve (registry []);
     list_bindings := fun _ _ => Returns ([], None);
     NamingContext_destroy := NamingContext_destroy (registry []);
     next_n := next_n (registry []);
     ControlTask_narrow := ControlTask_narrow (registry []);
     getName := getName (registry []) |}.

(** A name with a NUL character in it: "alpha", NUL, "x". *)
Definition alpha_NUL_x : string :=
  ("alpha" ++ String Ascii.zero "x")%string.

(** The process once [InitOrb] has succeeded against [registry]. *)
Definition connected : process :=
  {| orb := Some the_orb; rootContext := Some name_service;
     output := [(cout, "found CORBA NameService.")] |}.

End Sample.

(** The states the sample tasks report. *)
Definition sample_getTaskState (r : nat) : outcome string :=
  if Nat.eqb r Sample.alpha then Returns "Running" else Returns "Stopped".

(** ** Runs on the sample registry *)

Example InitOrb_connects :
  CorbaAccess.InitOrb (Sample.registry []) ["client"] startup
  = (Ret true, Sample.connected).
Proof. reflexivity. Qed.

Example knownTasks_3 :
  CorbaAccess.knownTasks (Sample.registry (Sample.pages_of 3 10 (Sample.bindings 3)))
    5 Sample.connected
  = (Ret ["A"; "B"; "C"], Sample.connected).
Proof. reflexivity. Qed.

Example knownTasks_10 :
  CorbaAccess.knownTasks (Sample.registry (Sample.pages_of 10 10 (Sample.bindings 10)))
    5 Sample.connected
  = (Ret ["A"; "B"; "C"; "D"; "E"; "F"; "G"; "H"; "I"; "J"], Sample.connected).
Proof. reflexivity. Qed.

Example knownTasks_23_length :
  match CorbaAccess.knownTasks
          (Sample.registry (Sample.pages_of 23 10 (Sample.bindings 23)))
          5 Sample.connected with
  | (Ret names, _) => length names = 23 /\ NoDup names
  | _ => False
  end.
Proof.
  vm_compute. split; [reflexivity |].
  repeat (constructor; [simpl; intuition discriminate |]). constructor.
Qed.

Example findByName_alpha :
  CorbaAccess.findByName (Sample.registry []) "alpha" Sample.connected
  = (Ret (Some Sample.alpha),
     log Sample.connected
       [(cout, "Successfully connected to ControlTaskServer 'alpha'.")]).
Proof. reflexivity. Qed.

Example findByName_delta :
  CorbaAccess.findByName (Sample.registry []) "delta" Sample.connected
  = (Raise (IllegalServer_exn IllegalServer),
     log Sample.connected
       [(cerr, "CORBA exception raised when resolving Object !");
        (cerr, "NotFound")]).
Proof. reflexivity. Qed.

Example findByName_gamma :
  CorbaAccess.findByName (Sample.registry []) "gamma" Sample.connected
  = (Raise (IllegalServer_exn IllegalServer),
     log Sample.connected
       [(cerr, "Failed to acquire ControlTaskServer 'gamma'.");
        (cerr, "Unknown Exception in CorbaAccess construction!")]).
Proof. reflexivity. Qed.

Example DestroyOrb_connected :
  CorbaAccess.DestroyOrb (Sample.registry []) Sample.connected
  = (Ret tt,
     log Sample.connected
       [(cerr, "Orb destruction : CORBA exception raised!"); (cerr, "NotEmpty")]).
Proof. reflexivity. Qed.

Example DestroyOrb_at_startup :
  CorbaAccess.DestroyOrb (Sample.registry []) startup
  = (Ret tt,
     log startup
       [(cerr, "Orb destruction : CORBA exception raised!"); (cerr, "INV_OBJREF")]).
Proof. reflexivity. Qed.

(** ** Basic facts about the monad and the log *)

Lemma log_log p a b : log (log p a) b = log p (a ++ b).
Proof. unfold log; simpl. now rewrite app_assoc. Qed.

Lemma log_nil p : log p [] = p.
Proof. destruct p; unfold log; simpl. now rewrite app_nil_r. Qed.

Lemma is_nil_false {R : Type} (h : option R) :
  CORBA.is_nil h = false <-> h <> None.
Proof. destruct h; simpl; split; congruence. Qed.

(** Unfolds the member functions and the monad down to the answers of the
    outside. *)
Ltac unfold_cxx :=
  unfold CorbaAccess.InitOrb, CorbaAccess.DestroyOrb, CorbaAccess.findByName,
    CorbaAccess.knownTasks, CorbaAccess.knownTasks_try,
    try_catch, bind, call, ret, throw, put,
    get_orb, get_rootContext, set_orb, set_rootContext in *.

(** Case analysis on the next thing the code inspects: the answer of a
    call, the class of a caught exception, or the nil test of a handle. *)
Ltac next_answer :=
  match goal with
  | |- context [if CORBA.is_nil ?x then _ else _] =>
      is_var x; destruct x
  | |- context [match ?e with CORBA_Exception _ => _ | _ => _ end] =>
      is_var e; destruct e
  | |- context [match ?o with Returns _ => _ | Throws _ => _ end] =>
      lazymatch o with
      | Returns _ => fail
      | Throws _ => fail
      | _ => destruct o eqn:?
      end
  end; cbn.

(** ** InitOrb *)

Section InitOrb_facts.

Variable env : Remote.
Variable argv : list string.

(** The guard at the top of [InitOrb]. *)
Lemma InitOrb_guard p o :
  orb p = Some o -> CorbaAccess.InitOrb env argv p = (Ret false, p).
Proof.
  intros H. unfold_cxx. now rewrite H.
Qed.

(** Past the guard, [InitOrb] with a runtime that starts: the handle is
    assigned first, and every later path keeps it. *)
Lemma InitOrb_keeps_orb p o r p' :
  orb p = None ->
  ORB_init env argv "omniORB4" = Returns o ->
  CorbaAccess.InitOrb env argv p = (r, p') ->
  orb p' = o.
Proof.
  intros Hnil Hinit. unfold_cxx. rewrite Hnil, Hinit. simpl.
  repeat next_answer; intros H; inversion H; reflexivity.
Qed.

(** When the runtime does not start, nothing is assigned. *)
Lemma InitOrb_no_runtime p e r p' :
  orb p = None ->
  ORB_init env argv "omniORB4" = Throws e ->
  CorbaAccess.InitOrb env argv p = (r, p') ->
  orb p' = None /\ rootContext p' = rootContext p.
Proof.
  intros Hnil Hinit. unfold_cxx. rewrite Hnil, Hinit. simpl.
  destruct e; simpl; intros H; inversion H; subst; simpl; auto.
Qed.

(** A nil runtime handle makes the next call throw INV_OBJREF, so the
    root context is not assigned either. *)
Lemma InitOrb_nil_runtime p r p' :
  orb p = None ->
  ORB_init env argv "omniORB4" = Returns None ->
  CorbaAccess.InitOrb env argv p = (r, p') ->
  r = Ret false /\ rootContext p' = rootContext p.
Proof.
  intros Hnil Hinit. unfold_cxx. rewrite Hnil, Hinit. simpl.
  intros H; inversion H; simpl; auto.
Qed.

End InitOrb_facts.

(** ** What the other member functions leave alone *)

Lemma DestroyOrb_statics env p r p' :
  CorbaAccess.DestroyOrb env p = (r, p') ->
  orb p' = orb p /\ rootContext p' = rootContext p.
Proof.
  unfold_cxx. repeat next_answer; intros H; inversion H; simpl; auto.
Qed.

Lemma findByName_statics env name p r p' :
  CorbaAccess.findByName env name p = (r, p') ->
  orb p' = orb p /\ rootContext p' = rootContext p.
Proof.
  unfold_cxx. repeat next_answer; intros H; inversion H; simpl; auto.
Qed.

Lemma knownTasks_process env fuel p r p' :
  CorbaAccess.knownTasks env fuel p = (r, p') -> p' = p.
Proof.
  unfold CorbaAccess.knownTasks.
  destruct (CorbaAccess.knownTasks_try env fuel (rootContext p) []) as [[u | e |] names];
    intros H; inversion H; reflexivity.
Qed.

(** The root context is only ever assigned after the runtime handle. *)
Lemma root_needs_orb p :
  reachable p -> orb p = None -> rootContext p = None.
Proof.
  induction 1 as [ | env argv p r p' Hp IH Hrun | env p r p' Hp IH Hrun
                   | env fuel p r p' Hp IH Hrun | env name p r p' Hp IH Hrun ].
  - reflexivity.
  - intros Hnil. destruct (orb p) as [o |] eqn:Horb.
    + rewrite (InitOrb_guard env argv p o Horb) in Hrun.
      inversion Hrun; subst. congruence.
    + destruct (ORB_init env argv "omniORB4") as [o | e] eqn:Hinit.
      * pose proof (InitOrb_keeps_orb env argv p _ _ _ Horb Hinit Hrun) as Hkept.
        subst o. rewrite Hnil in Hinit.
        destruct (InitOrb_nil_runtime env argv p _ _ Horb Hinit Hrun) as [_ Hroot].
        rewrite Hroot. auto.
      * destruct (InitOrb_no_runtime env argv p _ _ _ Horb Hinit Hrun) as [_ Hroot].
        rewrite Hroot. auto.
  - destruct (DestroyOrb_statics env p _ _ Hrun) as [Ho Hr].
    rewrite Ho, Hr. exact IH.
  - rewrite (knownTasks_process env fuel p _ _ Hrun). exact IH.
  - destruct (findByName_statics env name p _ _ Hrun) as [Ho Hr].
    rewrite Ho, Hr. exact IH.
Qed.

(** [InitOrb] returns [true] on one path only, which has assigned a non-nil
    runtime handle. *)
Lemma InitOrb_true_orb env argv p p' :
  CorbaAccess.InitOrb env argv p = (Ret true, p') -> orb p' <> None.
Proof.
  intros Hrun. destruct (orb p) as [o |] eqn:Horb.
  - rewrite (InitOrb_guard env argv p o Horb) in Hrun. discriminate.
  - destruct (ORB_init env argv "omniORB4") as [[o |] | e] eqn:Hinit.
    + rewrite (InitOrb_keeps_orb env argv p _ _ _ Horb Hinit Hrun). discriminate.
    + destruct (InitOrb_nil_runtime env argv p _ _ Horb Hinit Hrun). discriminate.
    + revert Hrun. unfold_cxx. rewrite Horb, Hinit. simpl.
      destruct e; discriminate.
Qed.

(** ** Initialisation: the guard, the failure paths, the handles *)

(** C5.  Once the transport handle is initialised, a further [InitOrb], with
    any arguments and whatever the outside would answer, returns [false] and
    leaves the whole process (both handles, and the output) as it was. *)
Theorem InitOrb_again_is_refused env argv p :
  CORBA.is_nil (orb p) = false ->
  CorbaAccess.InitOrb env argv p = (Ret false, p).
Proof.
  intros H. apply is_nil_false in H.
  destruct (orb p) as [o |] eqn:Horb; [| congruence].
  now apply InitOrb_guard with (o := o).
Qed.

Lemma InitOrb_again_is_refused_witness :
  CORBA.is_nil (orb Sample.connected) = false /\
  CorbaAccess.InitOrb (Sample.registry []) ["client"; "-ORBInitRef"] Sample.connected
  = (Ret false, Sample.connected).
Proof.
  split; [reflexivity |].
  apply (InitOrb_again_is_refused (Sample.registry []) ["client"; "-ORBInitRef"]
           Sample.connected).
  reflexivity.
Defined.

(** C10.  When [InitOrb] has assigned the transport handle (the runtime
    started) and then returns [false], the handle stays assigned, and every
    later [InitOrb] returns [false] at once: its result does not depend on the
    outside, and it assigns and writes nothing. *)
Theorem InitOrb_failure_is_final env argv p o p' :
  CORBA.is_nil (orb p) = true ->
  ORB_init env argv "omniORB4" = Returns (Some o) ->
  CorbaAccess.InitOrb env argv p = (Ret false, p') ->
  orb p' = Some o /\
  forall env' argv', CorbaAccess.InitOrb env' argv' p' = (Ret false, p').
Proof.
  intros Hnil Hinit Hrun.
  assert (Horb : orb p = None) by (destruct (orb p); [discriminate | reflexivity]).
  pose proof (InitOrb_keeps_orb env argv p _ _ _ Horb Hinit Hrun) as Hkept.
  split; [exact Hkept |].
  intros env' argv'. now apply InitOrb_guard with (o := o).
Qed.

(** C3, as the code has it.  In the uninitialised state, when the runtime
    starts and the naming-service reference it resolves is nil, [InitOrb]
    writes its diagnostic to [cerr] and raises [IllegalServer] to its caller:
    the handler of [InitOrb] takes CORBA exceptions only.  The transport
    handle stays assigned and the root context is nil. *)
Theorem InitOrb_nil_NameService_raises env argv p o :
  CORBA.is_nil (orb p) = true ->
  ORB_init env argv "omniORB4" = Returns (Some o) ->
  resolve_initial_references env o "NameService" = Returns None ->
  CorbaAccess.InitOrb env argv p
  = (Raise (IllegalServer_exn IllegalServer),
     log {| orb := Some o; rootContext := None; output := output p |}
       [(cerr, "CorbaAccess could not acquire NameService.")]).
Proof.
  intros Hnil Hinit Hns.
  assert (Horb : orb p = None) by (destruct (orb p); [discriminate | reflexivity]).
  unfold_cxx. rewrite Horb, Hinit. cbn. rewrite Hns. reflexivity.
Qed.

(** C4, as the code has it.  In every state the process can reach, the root
    context is initialised only if the transport handle is; and [InitOrb]
    returns [true] only with the transport handle initialised on return. *)
Theorem root_context_needs_transport p :
  reachable p ->
  (CORBA.is_nil (orb p) = true -> CORBA.is_nil (rootContext p) = true) /\
  (forall env argv p',
      CorbaAccess.InitOrb env argv p = (Ret true, p') ->
      CORBA.is_nil (orb p') = false).
Proof.
  intros Hreach. split.
  - intros Hnil.
    assert (Horb : orb p = None) by (destruct (orb p); [discriminate | reflexivity]).
    now rewrite (root_needs_orb p Hreach Horb).
  - intros env argv p' Hrun. apply is_nil_false.
    exact (InitOrb_true_orb env argv p p' Hrun).
Qed.

Lemma InitOrb_failure_is_final_witness :
  orb Sample.half_started = Some Sample.the_orb /\
  forall env' argv',
    CorbaAccess.InitOrb env' argv' Sample.half_started
    = (Ret false, Sample.half_started).
Proof.
  apply (InitOrb_failure_is_final Sample.no_name_service ["client"] startup
           Sample.the_orb Sample.half_started);
    reflexivity.
Defined.

Lemma InitOrb_nil_NameService_raises_witness :
  CorbaAccess.InitOrb (Sample.orb_only (Returns None)) ["client"] startup
  = (Raise (IllegalServer_exn IllegalServer),
     log {| orb := Some Sample.the_orb; rootContext := None; output := [] |}
       [(cerr, "CorbaAccess could not acquire NameService.")]).
Proof.
  apply (InitOrb_nil_NameService_raises (Sample.orb_only (Returns None))
           ["client"] startup Sample.the_orb);
    reflexivity.
Defined.

(** C3 as stated fails: the runtime starts, the naming-service reference is
    nil, and [InitOrb] does not return [false]; the [IllegalServer] it throws
    reaches the caller. *)
Lemma InitOrb_nil_NameService_escapes :
  CORBA.is_nil (orb startup) = true /\
  ORB_init (Sample.orb_only (Returns None)) ["client"] "omniORB4"
  = Returns (Some Sample.the_orb) /\
  resolve_initial_references (Sample.orb_only (Returns None)) Sample.the_orb
    "NameService" = Returns None /\
  fst (CorbaAccess.InitOrb (Sample.orb_only (Returns None)) ["client"] startup)
  = Raise (IllegalServer_exn IllegalServer) /\
  fst (CorbaAccess.InitOrb (Sample.orb_only (Returns None)) ["client"] startup)
  <> Ret false.
Proof.
  repeat split; try reflexivity. cbn. discriminate.
Qed.

Lemma root_context_needs_transport_witness :
  (CORBA.is_nil (orb startup) = true -> CORBA.is_nil (rootContext startup) = true) /\
  (forall env argv p',
      CorbaAccess.InitOrb env argv startup = (Ret true, p') ->
      CORBA.is_nil (orb p') = false).
Proof.
  apply (root_context_needs_transport startup). exact reach_startup.
Defined.

(** C4 as stated fails: [InitOrb] starts the runtime, cannot reach the naming
    service and returns [false]; the process is left with the transport
    handle initialised and the root context nil. *)
Lemma InitOrb_failure_leaves_transport_only :
  CorbaAccess.InitOrb Sample.no_name_service ["client"] startup
  = (Ret false, Sample.half_started) /\
  reachable Sample.half_started /\
  CORBA.is_nil (orb Sample.half_started) = false /\
  CORBA.is_nil (rootContext Sample.half_started) = true.
Proof.
  assert (H : CorbaAccess.InitOrb Sample.no_name_service ["client"] startup
              = (Ret false, Sample.half_started)) by reflexivity.
  repeat split; try reflexivity.
  exact (reach_InitOrb Sample.no_name_service ["client"] startup _ _ reach_startup H).
Qed.

(** The nil test of [InitOrb] is on the resolved object, not on the narrowed
    root context: with a naming-service object of another type, [InitOrb]
    returns [true] and the root context is nil. *)
Example InitOrb_true_with_nil_rootContext :
  CorbaAccess.InitOrb (Sample.orb_only (Returns (Some Sample.gamma))) ["client"] startup
  = (Ret true,
     {| orb := Some Sample.the_orb; rootContext := None;
        output := [(cout, "found CORBA NameService.")] |}).
Proof. reflexivity. Qed.

(** ** Lookup of one task *)

(** [findByName], path by path: the three calls in order, each either going
    on or handing its exception to the handlers. *)
Lemma findByName_paths env name p :
  CorbaAccess.findByName env name p
  = match lookup env p name with
    | Throws e => findByName_catch e p
    | Returns obj =>
        match _narrow (ControlTask_narrow env) obj with
        | Throws e => findByName_catch e p
        | Returns None =>
            (Raise (IllegalServer_exn IllegalServer),
             log p [(cerr, ("Failed to acquire ControlTaskServer '" ++ name ++ "'.")%string);
                    (cerr, "Unknown Exception in CorbaAccess construction!")])
        | Returns (Some t) =>
            match getName env t with
            | Throws e => findByName_catch e p
            | Returns nm =>
                (Ret (Some t),
                 log p [(cout,
                         ("Successfully connected to ControlTaskServer '"
                          ++ nm ++ "'.")%string)])
            end
        end
    end.
Proof.
  unfold lookup, findByName_catch. unfold_cxx.
  repeat next_answer; rewrite ?log_log; reflexivity.
Qed.

(** Whatever is caught, the handlers end in a [throw]. *)
Lemma findByName_catch_raises e p :
  exists e' lines, findByName_catch e p = (Raise e', log p lines).
Proof.
  destruct e; simpl; eauto.
Qed.

(** C1.  When the name does not resolve under [ControlTasks], or resolves to
    an object that narrows to nil, [findByName] raises [IllegalServer], whose
    reason reads "This server does not exist or has the wrong type."; and on
    no path does [findByName] return a nil handle. *)
Theorem findByName_failure_is_IllegalServer env name p :
  (does_not_resolve env p name \/ narrows_to_nil env p name ->
   exists lines,
     CorbaAccess.findByName env name p
     = (Raise (IllegalServer_exn IllegalServer), log p lines) /\
     what IllegalServer = "This server does not exist or has the wrong type.") /\
  (forall p', CorbaAccess.findByName env name p <> (Ret None, p')).
Proof.
  rewrite findByName_paths. split.
  - intros [[c Hc] | [obj [Hobj Hnil]]].
    + rewrite Hc. simpl. eauto.
    + rewrite Hobj, Hnil. eauto.
  - intros p'.
    destruct (lookup env p name) as [obj | e].
    + destruct (_narrow (ControlTask_narrow env) obj) as [[t |] | e].
      * destruct (getName env t) as [nm | e]; [discriminate |].
        destruct (findByName_catch_raises e p) as (e' & lines & ->). discriminate.
      * discriminate.
      * destruct (findByName_catch_raises e p) as (e' & lines & ->). discriminate.
    + destruct (findByName_catch_raises e p) as (e' & lines & ->). discriminate.
Qed.

Lemma findByName_failure_is_IllegalServer_witness :
  (does_not_resolve (Sample.registry []) Sample.connected "delta" /\
   exists lines,
     CorbaAccess.findByName (Sample.registry []) "delta" Sample.connected
     = (Raise (IllegalServer_exn IllegalServer), log Sample.connected lines) /\
     what IllegalServer = "This server does not exist or has the wrong type.") /\
  (narrows_to_nil (Sample.registry []) Sample.connected "gamma" /\
   exists lines,
     CorbaAccess.findByName (Sample.registry []) "gamma" Sample.connected
     = (Raise (IllegalServer_exn IllegalServer), log Sample.connected lines) /\
     what IllegalServer = "This server does not exist or has the wrong type.").
Proof.
  assert (Hdelta : does_not_resolve (Sample.registry []) Sample.connected "delta")
    by (exists CORBA.NamingContext_NotFound; reflexivity).
  assert (Hgamma : narrows_to_nil (Sample.registry []) Sample.connected "gamma")
    by (exists (Some Sample.gamma); split; reflexivity).
  split; (split; [assumption |]).
  - apply (proj1 (findByName_failure_is_IllegalServer
                    (Sample.registry []) "delta" Sample.connected)).
    left. exact Hdelta.
  - apply (proj1 (findByName_failure_is_IllegalServer
                    (Sample.registry []) "gamma" Sample.connected)).
    right. exact Hgamma.
Defined.

(** C7.  When [findByName name] returns, the name resolved to an object, the
    object narrowed to a non-nil handle, [getName] was answered on that
    handle, the name it reported is the one written in the success line, and
    the handle returned is that narrowed handle. *)
Theorem findByName_returns_verified_handle env name p h p' :
  CorbaAccess.findByName env name p = (Ret h, p') ->
  exists obj t nm,
    lookup env p name = Returns obj /\
    _narrow (ControlTask_narrow env) obj = Returns (Some t) /\
    getName env t = Returns nm /\
    h = Some t /\
    p' = log p [(cout,
                 ("Successfully connected to ControlTaskServer '"
                  ++ nm ++ "'.")%string)].
Proof.
  rewrite findByName_paths.
  destruct (lookup env p name) as [obj | e] eqn:Hobj.
  - destruct (_narrow (ControlTask_narrow env) obj) as [[t |] | e] eqn:Ht.
    + destruct (getName env t) as [nm | e] eqn:Hnm.
      * intros H. injection H as Hh Hp. exists obj, t, nm.
        repeat split; first [assumption | symmetry; assumption].
      * destruct (findByName_catch_raises e p) as (e' & lines & ->). discriminate.
    + discriminate.
    + destruct (findByName_catch_raises e p) as (e' & lines & ->). discriminate.
  - destruct (findByName_catch_raises e p) as (e' & lines & ->). discriminate.
Qed.

Lemma findByName_returns_verified_handle_witness :
  exists obj t nm,
    lookup (Sample.registry []) Sample.connected "alpha" = Returns obj /\
    _narrow (ControlTask_narrow (Sample.registry [])) obj = Returns (Some t) /\
    getName (Sample.registry []) t = Returns nm /\
    Some Sample.alpha = Some t /\
    log Sample.connected
      [(cout, "Successfully connected to ControlTaskServer 'alpha'.")]
    = log Sample.connected
        [(cout,
          ("Successfully connected to ControlTaskServer '" ++ nm ++ "'.")%string)].
Proof.
  apply (findByName_returns_verified_handle (Sample.registry []) "alpha"
           Sample.connected).
  reflexivity.
Defined.

(** The name reported by [getName] is not compared with the name looked up:
    the identity is the one the object declares. *)
Example findByName_beta_on_other_registry :
  CorbaAccess.findByName
    {| ORB_init := ORB_init (Sample.registry []);
       resolve_initial_references := resolve_initial_references (Sample.registry []);
       ORB_destroy := ORB_destroy (Sample.registry []);
       NamingContext_narrow := NamingContext_narrow (Sample.registry []);
       resolve := resolve (Sample.registry []);
       list_bindings := list_bindings (Sample.registry []);
       NamingContext_destroy := NamingContext_destroy (Sample.registry []);
       next_n := next_n (Sample.registry []);
       ControlTask_narrow := ControlTask_narrow (Sample.registry []);
       getName := fun _ => Returns "camera_driver" |}
    "beta" Sample.connected
  = (Ret (Some Sample.beta),
     log Sample.connected
       [(cout, "Successfully connected to ControlTaskServer 'camera_driver'.")]).
Proof. reflexivity. Qed.

(** C8.  An exception that is not a CORBA exception and is raised by one of
    the calls of [findByName] is logged on [cerr] and reaches the caller as
    it is. *)
Theorem findByName_rethrows_other_faults env name p e :
  is_CORBA_Exception e = false ->
  raised_during env p name e ->
  CorbaAccess.findByName env name p
  = (Raise e, log p [(cerr, "Unknown Exception in CorbaAccess construction!")]).
Proof.
  intros Hother Hraised. rewrite findByName_paths.
  assert (Hcatch : findByName_catch e p
                   = (Raise e,
                      log p [(cerr, "Unknown Exception in CorbaAccess construction!")]))
    by (destruct e; [discriminate | reflexivity | reflexivity]).
  destruct Hraised as [H | [obj [Hobj [H | [t [Ht H]]]]]].
  - now rewrite H.
  - now rewrite Hobj, H.
  - now rewrite Hobj, Ht, H.
Qed.

Lemma findByName_rethrows_other_faults_witness :
  CorbaAccess.findByName Sample.out_of_memory "alpha" Sample.connected
  = (Raise (other_exception "std::bad_alloc"),
     log Sample.connected
       [(cerr, "Unknown Exception in CorbaAccess construction!")]).
Proof.
  apply (findByName_rethrows_other_faults Sample.out_of_memory "alpha"
           Sample.connected (other_exception "std::bad_alloc")).
  - reflexivity.
  - left. reflexivity.
Defined.

(** ** Shutdown *)

(** C9.  As long as destroying the root context and the runtime fails, if at
    all, with CORBA exceptions, [DestroyOrb] returns to its caller from every
    state of the process (handles nil or not), having written to [cerr] and
    changed nothing else. *)
Theorem DestroyOrb_never_throws env p :
  (forall r, transport_level (NamingContext_destroy env r)) ->
  (forall r, transport_level (ORB_destroy env r)) ->
  exists lines,
    CorbaAccess.DestroyOrb env p = (Ret tt, log p lines) /\
    lines <> [] /\
    Forall (fun l => fst l = cerr) lines.
Proof.
  intros Hroot Horb. unfold_cxx.
  assert (Hr : transport_level (invoke (rootContext p) (NamingContext_destroy env)))
    by (destruct (rootContext p); [apply Hroot | reflexivity]).
  assert (Ho : transport_level (invoke (orb p) (ORB_destroy env)))
    by (destruct (orb p); [apply Horb | reflexivity]).
  destruct (invoke (rootContext p) (NamingContext_destroy env)) as [[] | e]; cbn.
  - destruct (invoke (orb p) (ORB_destroy env)) as [[] | e]; cbn.
    + eexists. split; [reflexivity |]. split; [discriminate | repeat constructor].
    + destruct e; try discriminate Ho. cbn. rewrite log_log.
      eexists. split; [reflexivity |]. split; [discriminate | repeat constructor].
  - destruct e; try discriminate Hr. cbn. rewrite log_log.
    eexists. split; [reflexivity |]. split; [discriminate | repeat constructor].
Qed.

Lemma DestroyOrb_never_throws_witness :
  exists lines,
    CorbaAccess.DestroyOrb (Sample.registry []) Sample.half_started
    = (Ret tt, log Sample.half_started lines) /\
    lines <> [] /\
    Forall (fun l => fst l = cerr) lines.
Proof.
  apply (DestroyOrb_never_throws (Sample.registry []) Sample.half_started).
  - intros r. reflexivity.
  - intros r. exact I.
Defined.

(** An exception of another kind is not caught by [DestroyOrb]. *)
Example DestroyOrb_other_fault :
  CorbaAccess.DestroyOrb
    {| ORB_init := ORB_init (Sample.registry []);
       resolve_initial_references := resolve_initial_references (Sample.registry []);
       ORB_destroy := ORB_destroy (Sample.registry []);
       NamingContext_narrow := NamingContext_narrow (Sample.registry []);
       resolve := resolve (Sample.registry []);
       list_bindings := list_bindings (Sample.registry []);
       NamingContext_destroy := fun _ => Throws (other_exception "std::bad_alloc");
       next_n := next_n (Sample.registry []);
       ControlTask_narrow := ControlTask_narrow (Sample.registry []);
       getName := getName (Sample.registry []) |}
    Sample.connected
  = (Raise (other_exception "std::bad_alloc"), Sample.connected).
Proof. reflexivity. Qed.

(** ** Enumeration *)

Section Enumeration.

Variable env : Remote.

(** The [for] loop appends the first segment of every binding of the page,
    in order. *)
Lemma push_back_ids_named page :
  Forall named page ->
  forall names,
    CorbaAccess.push_back_ids page names
    = (Ret tt, names ++ map first_segment page).
Proof.
  induction 1 as [| b page Hb _ IH]; intros names; simpl.
  - now rewrite app_nil_r.
  - unfold bind, call, CorbaAccess.first_component, CorbaAccess.push_back,
      first_segment.
    unfold named in Hb.
    destruct (CosNaming.binding_name b) as [| c rest]; [congruence |].
    rewrite IH. now rewrite <- app_assoc.
Qed.

(** The [while] loop, on an iterator that hands out [pages] and then
    answers [false], stops after one call per page and one more. *)
Lemma next_n_loop_delivers it pages :
  Forall (Forall named) pages ->
  forall k names fuel,
    delivers env it k pages ->
    length pages < fuel ->
    CorbaAccess.next_n_loop env fuel (Some it) k names
    = (Ret tt, names ++ map first_segment (concat pages)).
Proof.
  induction 1 as [| page pages Hpage _ IH]; intros k names fuel Hit Hfuel;
    (destruct fuel as [| fuel]; [simpl in Hfuel; lia |]); simpl in *.
  - destruct Hit as [rest Hlast].
    unfold bind, call. rewrite Hlast. simpl. now rewrite app_nil_r.
  - destruct Hit as [Hpg Hmore].
    unfold bind, call. rewrite Hpg. simpl.
    rewrite (push_back_ids_named page Hpage).
    rewrite (IH (S k) _ fuel Hmore) by lia.
    now rewrite map_app, app_assoc.
Qed.

(** [knownTasks] on a registry whose [ControlTasks] context lists its
    bindings in [pages]. *)
Lemma knownTasks_pages p ct pages fuel :
  ControlTasks_is env p ct ->
  lists_in_pages env ct pages ->
  Forall (Forall named) pages ->
  length pages < fuel ->
  CorbaAccess.knownTasks env fuel p
  = (Ret (map first_segment (concat pages)), p).
Proof.
  intros (root & obj & Hroot & Hobj & Hct) (immediate & it & Hlist & Hit)
    Hnamed Hfuel.
  unfold_cxx. rewrite Hroot. simpl. rewrite Hobj, Hct. simpl.
  rewrite Hlist. simpl.
  now rewrite (next_n_loop_delivers it pages Hnamed 0 [] fuel Hit Hfuel).
Qed.

(** [knownTasks] on a registry without [ControlTasks]: [NotFound] is
    caught and the list is still empty. *)
Lemma knownTasks_missing p fuel :
  ControlTasks_missing env p ->
  CorbaAccess.knownTasks env fuel p = (Ret [], p).
Proof.
  intros (root & Hroot & Hmissing).
  unfold_cxx. rewrite Hroot. simpl. now rewrite Hmissing.
Qed.

End Enumeration.

(** C2.  When [ControlTasks] resolves to a naming context holding the
    bindings [bindings], whatever their number and however the iterator cuts
    them into pages, [knownTasks] returns as many names as there are
    bindings: the first segment of each binding's name, once per binding, in
    the order of the iterator. *)
Theorem knownTasks_returns_every_binding env p ct bindings pages :
  ControlTasks_is env p ct ->
  lists_in_pages env ct pages ->
  concat pages = bindings ->
  Forall named bindings ->
  exists fuel0,
    forall fuel, fuel0 <= fuel ->
      exists names,
        CorbaAccess.knownTasks env fuel p = (Ret names, p) /\
        length names = length bindings /\
        names = map first_segment bindings.
Proof.
  intros Hct Hpages Hcut Hnamed.
  exists (S (length pages)). intros fuel Hfuel.
  exists (map first_segment bindings). subst bindings.
  apply Forall_concat in Hnamed.
  rewrite (knownTasks_pages env p ct pages fuel Hct Hpages Hnamed) by lia.
  rewrite length_map. auto.
Qed.

(** The empty cases [knownTasks] does handle: it returns the empty list
    when the registry has no [ControlTasks] entry (the [NotFound] of the
    lookup is caught), and when [ControlTasks] is a context that hands back
    an iterator with no binding to hand out. *)
Theorem knownTasks_empty env p :
  ControlTasks_missing env p \/
  (exists ct, ControlTasks_is env p ct /\ lists_in_pages env ct []) ->
  exists fuel0,
    forall fuel, fuel0 <= fuel ->
      CorbaAccess.knownTasks env fuel p = (Ret [], p).
Proof.
  intros [Hmissing | (ct & Hct & Hempty)]; exists 1; intros fuel Hfuel.
  - now apply knownTasks_missing.
  - apply (knownTasks_pages env p ct [] fuel Hct Hempty); [constructor |].
    simpl. lia.
Qed.

Lemma knownTasks_returns_every_binding_witness :
  (exists fuel0,
      forall fuel, fuel0 <= fuel ->
        exists names,
          CorbaAccess.knownTasks
            (Sample.registry (Sample.pages_of 23 10 (Sample.bindings 23)))
            fuel Sample.connected
          = (Ret names, Sample.connected) /\
          length names = 23 /\
          names = map first_segment (Sample.bindings 23)) /\
  (exists fuel0,
      forall fuel, fuel0 <= fuel ->
        exists names,
          CorbaAccess.knownTasks
            (Sample.registry (Sample.pages_of 23 4 (Sample.bindings 23)))
            fuel Sample.connected
          = (Ret names, Sample.connected) /\
          length names = 23 /\
          names = map first_segment (Sample.bindings 23)).
Proof.
  split.
  - apply (knownTasks_returns_every_binding
             (Sample.registry (Sample.pages_of 23 10 (Sample.bindings 23)))
             Sample.connected Sample.control_tasks (Sample.bindings 23)
             (Sample.pages_of 23 10 (Sample.bindings 23))).
    + exists Sample.name_service, (Some Sample.control_tasks).
      repeat split; reflexivity.
    + exists [], Sample.iterator. split; [reflexivity |].
      simpl. repeat split. exists []. reflexivity.
    + reflexivity.
    + unfold Sample.bindings. simpl.
      repeat (constructor; [discriminate |]). constructor.
  - apply (knownTasks_returns_every_binding
             (Sample.registry (Sample.pages_of 23 4 (Sample.bindings 23)))
             Sample.connected Sample.control_tasks (Sample.bindings 23)
             (Sample.pages_of 23 4 (Sample.bindings 23))).
    + exists Sample.name_service, (Some Sample.control_tasks).
      repeat split; reflexivity.
    + exists [], Sample.iterator. split; [reflexivity |].
      simpl. repeat split. exists []. reflexivity.
    + reflexivity.
    + unfold Sample.bindings. simpl.
      repeat (constructor; [discriminate |]). constructor.
Defined.

Lemma knownTasks_empty_witness :
  (exists fuel0,
      forall fuel, fuel0 <= fuel ->
        CorbaAccess.knownTasks Sample.bare_registry fuel Sample.connected
        = (Ret [], Sample.connected)) /\
  (exists fuel0,
      forall fuel, fuel0 <= fuel ->
        CorbaAccess.knownTasks (Sample.registry []) fuel Sample.connected
        = (Ret [], Sample.connected)).
Proof.
  split.
  - apply (knownTasks_empty Sample.bare_registry Sample.connected).
    left. exists Sample.name_service. split; reflexivity.
  - apply (knownTasks_empty (Sample.registry []) Sample.connected).
    right. exists Sample.control_tasks. split.
    + exists Sample.name_service, (Some Sample.control_tasks).
      repeat split; reflexivity.
    + exists [], Sample.iterator. split; [reflexivity |].
      exists []. reflexivity.
Defined.

(** A naming service may answer [list] with a nil iterator when nothing is
    left to iterate over; the [while] loop then invokes [next_n] on nil, and
    the INV_OBJREF it gets is not the [NotFound] that [knownTasks] catches. *)
Example knownTasks_nil_iterator :
  CorbaAccess.knownTasks
    {| ORB_init := ORB_init (Sample.registry []);
       resolve_initial_references := resolve_initial_references (Sample.registry []);
       ORB_destroy := ORB_destroy (Sample.registry []);
       NamingContext_narrow := NamingContext_narrow (Sample.registry []);
       resolve := resolve (Sample.registry []);
       list_bindings := fun _ _ => Returns ([], None);
       NamingContext_destroy := NamingContext_destroy (Sample.registry []);
       next_n := next_n (Sample.registry []);
       ControlTask_narrow := ControlTask_narrow (Sample.registry []);
       getName := getName (Sample.registry []) |}
    5 Sample.connected
  = (Raise invoked_nil, Sample.connected).
Proof. reflexivity. Qed.


(** ** More on initialisation *)

(** [InitOrb] past its guard, path by path. *)
Lemma InitOrb_paths env argv p :
  orb p = None ->
  CorbaAccess.InitOrb env argv p
  = match ORB_init env argv "omniORB4" with
    | Throws e => InitOrb_catch e p
    | Returns o =>
        match invoke o (fun r => resolve_initial_references env r "NameService") with
        | Throws e =>
            InitOrb_catch e
              {| orb := o; rootContext := rootContext p; output := output p |}
        | Returns rootObj =>
            match _narrow (NamingContext_narrow env) rootObj with
            | Throws e =>
                InitOrb_catch e
                  {| orb := o; rootContext := rootContext p; output := output p |}
            | Returns c =>
                if CORBA.is_nil rootObj then
                  (Raise (IllegalServer_exn IllegalServer),
                   log {| orb := o; rootContext := c; output := output p |}
                     [(cerr, "CorbaAccess could not acquire NameService.")])
                else
                  (Ret true,
                   log {| orb := o; rootContext := c; output := output p |}
                     [(cout, "found CORBA NameService.")])
            end
        end
    end.
Proof.
  intros Hnil. unfold InitOrb_catch. unfold_cxx. rewrite Hnil. cbn.
  destruct p as [o0 r0 out0]; cbn in *; subst o0.
  repeat next_answer; rewrite ?log_log; reflexivity.
Qed.

Lemma nil_orb p : CORBA.is_nil (orb p) = true -> orb p = None.
Proof. destruct (orb p); [discriminate | reflexivity]. Qed.

Lemma same_process p :
  {| orb := orb p; rootContext := rootContext p; output := output p |} = p.
Proof. now destruct p. Qed.

(** X1.  [InitOrb] returns [true] exactly when the transport handle was nil,
    the runtime started with a non-nil handle, the naming-service reference
    resolved non-nil and its narrowing returned; the process then holds that
    handle and the narrowed context, and one line was written to [cout]. *)
Theorem InitOrb_succeeds_exactly_when env argv p p' :
  CorbaAccess.InitOrb env argv p = (Ret true, p') <->
  CORBA.is_nil (orb p) = true /\
  exists o obj c,
    ORB_init env argv "omniORB4" = Returns (Some o) /\
    resolve_initial_references env o "NameService" = Returns (Some obj) /\
    NamingContext_narrow env obj = Returns c /\
    p' = log {| orb := Some o; rootContext := c; output := output p |}
           [(cout, "found CORBA NameService.")].
Proof.
  split.
  - intros H. destruct (orb p) as [o0 |] eqn:Horb.
    + rewrite (InitOrb_guard env argv p o0 Horb) in H. discriminate.
    + rewrite (InitOrb_paths env argv p Horb) in H. split; [reflexivity |].
      destruct (ORB_init env argv "omniORB4") as [[o |] | e] eqn:Hinit; cbn in H.
      * destruct (resolve_initial_references env o "NameService")
          as [[obj |] | e] eqn:Hns; cbn in H.
        -- destruct (NamingContext_narrow env obj) as [c | e] eqn:Hnarrow.
           ++ injection H as <-. exists o, obj, c. auto.
           ++ destruct e; discriminate.
        -- discriminate.
        -- destruct e; discriminate.
      * discriminate.
      * destruct e; discriminate.
  - intros (Hnil & o & obj & c & Hinit & Hns & Hnarrow & ->).
    rewrite (InitOrb_paths env argv p (nil_orb p Hnil)), Hinit. cbn.
    rewrite Hns. cbn. now rewrite Hnarrow.
Qed.

(** X2.  When a call of [InitOrb] throws a CORBA exception, [InitOrb] returns
    [false] after two lines on [cerr], the second being the name of the
    exception; the root context is as before, and the transport handle is
    assigned if and only if the runtime had started. *)
Theorem InitOrb_transport_fault env argv p c assigned :
  CORBA.is_nil (orb p) = true ->
  InitOrb_raised env argv p (CORBA_Exception c) assigned ->
  CorbaAccess.InitOrb env argv p
  = (Ret false,
     log {| orb := assigned; rootContext := rootContext p; output := output p |}
       [(cerr, "Orb Init : CORBA exception raised!"); (cerr, CORBA._name c)]).
Proof.
  intros Hnil Hraised. rewrite (InitOrb_paths env argv p (nil_orb p Hnil)).
  destruct Hraised as [[Hinit ->] | [Hinit [Hns | (rootObj & Hns & Hnarrow)]]];
    rewrite Hinit.
  - cbn. now rewrite same_process.
  - now rewrite Hns.
  - now rewrite Hns, Hnarrow.
Qed.

Lemma InitOrb_transport_fault_witness :
  CorbaAccess.InitOrb Sample.no_name_service ["client"] startup
  = (Ret false,
     log {| orb := Some Sample.the_orb; rootContext := None; output := [] |}
       [(cerr, "Orb Init : CORBA exception raised!"); (cerr, "TRANSIENT")]).
Proof.
  apply (InitOrb_transport_fault Sample.no_name_service ["client"] startup
           (CORBA.SystemException "TRANSIENT") (Some Sample.the_orb)).
  - reflexivity.
  - right. split; [reflexivity |]. left. reflexivity.
Defined.

(** X3.  An exception that is not a CORBA exception, thrown by a call of
    [InitOrb], leaves [InitOrb] as it is; nothing is written, and the
    transport handle stays assigned if the runtime had started. *)
Theorem InitOrb_other_fault_escapes env argv p e assigned :
  CORBA.is_nil (orb p) = true ->
  is_CORBA_Exception e = false ->
  InitOrb_raised env argv p e assigned ->
  CorbaAccess.InitOrb env argv p
  = (Raise e,
     {| orb := assigned; rootContext := rootContext p; output := output p |}).
Proof.
  intros Hnil Hother Hraised.
  rewrite (InitOrb_paths env argv p (nil_orb p Hnil)).
  assert (Hcatch : forall q, InitOrb_catch e q = (Raise e, q))
    by (intros q; destruct e; [discriminate | reflexivity | reflexivity]).
  destruct Hraised as [[Hinit ->] | [Hinit [Hns | (rootObj & Hns & Hnarrow)]]];
    rewrite Hinit.
  - rewrite Hcatch. now rewrite same_process.
  - now rewrite Hns, Hcatch.
  - now rewrite Hns, Hnarrow, Hcatch.
Qed.

Lemma InitOrb_other_fault_escapes_witness :
  CorbaAccess.InitOrb
    (Sample.orb_only (Throws (other_exception "std::bad_alloc")))
    ["client"] startup
  = (Raise (other_exception "std::bad_alloc"),
     {| orb := Some Sample.the_orb; rootContext := None; output := [] |}).
Proof.
  apply (InitOrb_other_fault_escapes
           (Sample.orb_only (Throws (other_exception "std::bad_alloc")))
           ["client"] startup (other_exception "std::bad_alloc")
           (Some Sample.the_orb)).
  - reflexivity.
  - reflexivity.
  - right. split; [reflexivity |]. left. reflexivity.
Defined.

(** X4.  When the runtime itself fails to start with a CORBA exception,
    [InitOrb] returns [false] with the transport handle still nil, so the
    guard does not stop a later [InitOrb]: against a runtime that starts and
    a naming service that resolves, it returns [true]. *)
Theorem InitOrb_retry_after_runtime_failure env argv p c :
  CORBA.is_nil (orb p) = true ->
  ORB_init env argv "omniORB4" = Throws (CORBA_Exception c) ->
  exists p1,
    CorbaAccess.InitOrb env argv p = (Ret false, p1) /\
    orb p1 = None /\
    rootContext p1 = rootContext p /\
    forall env' argv' o obj c',
      ORB_init env' argv' "omniORB4" = Returns (Some o) ->
      resolve_initial_references env' o "NameService" = Returns (Some obj) ->
      NamingContext_narrow env' obj = Returns c' ->
      exists p2,
        CorbaAccess.InitOrb env' argv' p1 = (Ret true, p2) /\
        orb p2 = Some o /\ rootContext p2 = c'.
Proof.
  intros Hnil Hinit. pose proof (nil_orb p Hnil) as Horb.
  exists (log p [(cerr, "Orb Init : CORBA exception raised!");
                 (cerr, CORBA._name c)]).
  split; [| split; [exact Horb | split; [reflexivity |]]].
  - now rewrite (InitOrb_paths env argv p Horb), Hinit.
  - intros env' argv' o obj c' Hinit' Hns' Hnarrow'.
    rewrite InitOrb_paths by exact Horb.
    rewrite Hinit'. cbn. rewrite Hns'. cbn. rewrite Hnarrow'.
    eexists. repeat split.
Qed.

Lemma InitOrb_retry_after_runtime_failure_witness :
  exists p1,
    CorbaAccess.InitOrb
      {| ORB_init := fun _ _ => Throws (CORBA_Exception (CORBA.SystemException "INITIALIZE"));
         resolve_initial_references := resolve_initial_references (Sample.registry []);
         ORB_destroy := ORB_destroy (Sample.registry []);
         NamingContext_narrow := NamingContext_narrow (Sample.registry []);
         resolve := resolve (Sample.registry []);
         list_bindings := list_bindings (Sample.registry []);
         NamingContext_destroy := NamingContext_destroy (Sample.registry []);
         next_n := next_n (Sample.registry []);
         ControlTask_narrow := ControlTask_narrow (Sample.registry []);
         getName := getName (Sample.registry []) |}
      ["client"] startup = (Ret false, p1) /\
    orb p1 = None /\
    rootContext p1 = rootContext startup /\
    forall env' argv' o obj c',
      ORB_init env' argv' "omniORB4" = Returns (Some o) ->
      resolve_initial_references env' o "NameService" = Returns (Some obj) ->
      NamingContext_narrow env' obj = Returns c' ->
      exists p2,
        CorbaAccess.InitOrb env' argv' p1 = (Ret true, p2) /\
        orb p2 = Some o /\ rootContext p2 = c'.
Proof.
  apply (InitOrb_retry_after_runtime_failure _ ["client"] startup
           (CORBA.SystemException "INITIALIZE"));
    reflexivity.
Defined.


(** ** More on shutdown *)

(** [DestroyOrb], path by path: the root context first, the runtime only
    after it. *)
Lemma DestroyOrb_paths env p :
  CorbaAccess.DestroyOrb env p
  = match invoke (rootContext p) (NamingContext_destroy env) with
    | Throws e => DestroyOrb_catch e p
    | Returns _ =>
        match invoke (orb p) (ORB_destroy env) with
        | Throws e => DestroyOrb_catch e p
        | Returns _ => (Ret tt, log p [(cerr, "Orb destroyed.")])
        end
    end.
Proof.
  unfold DestroyOrb_catch. unfold_cxx.
  repeat next_answer; rewrite ?log_log; reflexivity.
Qed.

(** X5.  [DestroyOrb] resets neither handle, however it ends; so once the
    transport handle is initialised, [InitOrb] is refused after a shutdown
    as it was before. *)
Theorem DestroyOrb_leaves_guard_closed env p r p' :
  CORBA.is_nil (orb p) = false ->
  CorbaAccess.DestroyOrb env p = (r, p') ->
  orb p' = orb p /\ rootContext p' = rootContext p /\
  forall env' argv, CorbaAccess.InitOrb env' argv p' = (Ret false, p').
Proof.
  intros Hset Hrun.
  destruct (DestroyOrb_statics env p r p' Hrun) as [Ho Hr].
  repeat split; [exact Ho | exact Hr |].
  intros env' argv. destruct (orb p) as [o |] eqn:Horb; [| discriminate].
  now apply InitOrb_guard with (o := o).
Qed.

Lemma DestroyOrb_leaves_guard_closed_witness :
  orb (log Sample.connected
         [(cerr, "Orb destruction : CORBA exception raised!"); (cerr, "NotEmpty")])
  = orb Sample.connected /\
  rootContext (log Sample.connected
         [(cerr, "Orb destruction : CORBA exception raised!"); (cerr, "NotEmpty")])
  = rootContext Sample.connected /\
  forall env' argv,
    CorbaAccess.InitOrb env' argv
      (log Sample.connected
         [(cerr, "Orb destruction : CORBA exception raised!"); (cerr, "NotEmpty")])
    = (Ret false,
       log Sample.connected
         [(cerr, "Orb destruction : CORBA exception raised!"); (cerr, "NotEmpty")]).
Proof.
  apply (DestroyOrb_leaves_guard_closed (Sample.registry []) Sample.connected
           (Ret tt)); reflexivity.
Defined.

(** X6.  [DestroyOrb] ends with the single line "Orb destroyed." exactly
    when destroying the root context and then destroying the runtime both
    returned. *)
Theorem DestroyOrb_reports_success_exactly_when env p :
  CorbaAccess.DestroyOrb env p = (Ret tt, log p [(cerr, "Orb destroyed.")]) <->
  invoke (rootContext p) (NamingContext_destroy env) = Returns tt /\
  invoke (orb p) (ORB_destroy env) = Returns tt.
Proof.
  rewrite DestroyOrb_paths. split.
  - destruct (invoke (rootContext p) (NamingContext_destroy env)) as [[] | e].
    + destruct (invoke (orb p) (ORB_destroy env)) as [[] | e]; [auto |].
      destruct e; cbn; intros H; try discriminate.
      injection H as H. apply app_inv_head in H. discriminate.
    + destruct e; cbn; intros H; try discriminate.
      injection H as H. apply app_inv_head in H. discriminate.
  - intros [-> ->]. reflexivity.
Qed.

(** X7.  When destroying the root context throws, the runtime is not asked
    to shut down: the outcome of [DestroyOrb] is the same whatever
    [ORB_destroy] would have answered. *)
Theorem DestroyOrb_skips_runtime_after_root_failure env env' p e :
  invoke (rootContext p) (NamingContext_destroy env) = Throws e ->
  (forall r, NamingContext_destroy env' r = NamingContext_destroy env r) ->
  CorbaAccess.DestroyOrb env' p = CorbaAccess.DestroyOrb env p.
Proof.
  intros Hthrows Hsame. rewrite !DestroyOrb_paths.
  assert (Hinv : invoke (rootContext p) (NamingContext_destroy env')
                 = invoke (rootContext p) (NamingContext_destroy env))
    by (destruct (rootContext p); [apply Hsame | reflexivity]).
  now rewrite Hinv, Hthrows.
Qed.

Lemma DestroyOrb_skips_runtime_after_root_failure_witness :
  CorbaAccess.DestroyOrb
    {| ORB_init := ORB_init (Sample.registry []);
       resolve_initial_references := resolve_initial_references (Sample.registry []);
       ORB_destroy := fun _ => Throws (other_exception "std::bad_alloc");
       NamingContext_narrow := NamingContext_narrow (Sample.registry []);
       resolve := resolve (Sample.registry []);
       list_bindings := list_bindings (Sample.registry []);
       NamingContext_destroy := NamingContext_destroy (Sample.registry []);
       next_n := next_n (Sample.registry []);
       ControlTask_narrow := ControlTask_narrow (Sample.registry []);
       getName := getName (Sample.registry []) |}
    Sample.connected
  = CorbaAccess.DestroyOrb (Sample.registry []) Sample.connected.
Proof.
  apply (DestroyOrb_skips_runtime_after_root_failure (Sample.registry []) _
           Sample.connected
           (CORBA_Exception (CORBA.UserException "NotEmpty"))).
  - reflexivity.
  - intros r. reflexivity.
Defined.

(** X8.  With a nil root context (before any [InitOrb], or after one that
    failed), [DestroyOrb] writes the two lines of its handler, naming
    INV_OBJREF, and returns; it does so for every environment, the transport
    handle being assigned or not. *)
Theorem DestroyOrb_without_root_context env p :
  CORBA.is_nil (rootContext p) = true ->
  CorbaAccess.DestroyOrb env p
  = (Ret tt,
     log p [(cerr, "Orb destruction : CORBA exception raised!");
            (cerr, "INV_OBJREF")]).
Proof.
  intros Hnil. rewrite DestroyOrb_paths. revert Hnil.
  destruct (rootContext p); [discriminate | reflexivity].
Qed.

Lemma DestroyOrb_without_root_context_witness :
  CorbaAccess.DestroyOrb (Sample.registry []) Sample.half_started
  = (Ret tt,
     log Sample.half_started
       [(cerr, "Orb destruction : CORBA exception raised!");
        (cerr, "INV_OBJREF")]).
Proof.
  apply (DestroyOrb_without_root_context (Sample.registry []) Sample.half_started).
  reflexivity.
Defined.

(** ** More on enumeration *)

(** The [while] loop on an iterator that throws after some pages: the names
    of the pages handed out are in the list when the exception leaves. *)
Lemma next_n_loop_delivers_then_throws env it pages e :
  Forall (Forall named) pages ->
  forall k names fuel,
    delivers_then env it k pages (Throws e) ->
    length pages < fuel ->
    CorbaAccess.next_n_loop env fuel (Some it) k names
    = (Raise e, names ++ map first_segment (concat pages)).
Proof.
  induction 1 as [| page pages Hpage _ IH]; intros k names fuel Hit Hfuel;
    (destruct fuel as [| fuel]; [simpl in Hfuel; lia |]); simpl in *.
  - unfold bind, call. rewrite Hit. now rewrite app_nil_r.
  - destruct Hit as [Hpg Hmore].
    unfold bind, call. rewrite Hpg. simpl.
    rewrite (push_back_ids_named page Hpage).
    rewrite (IH (S k) _ fuel Hmore) by lia.
    now rewrite map_app, app_assoc.
Qed.

(** X9.  Without a naming context to list (nil root context, [ControlTasks]
    bound to nothing that narrows to a context, or a nil iterator),
    [knownTasks] does not return an empty list: the INV_OBJREF of the call
    through the nil reference leaves it, the process unchanged. *)
Theorem knownTasks_nothing_to_list env p fuel :
  nothing_to_list env p ->
  0 < fuel ->
  CorbaAccess.knownTasks env fuel p = (Raise invoked_nil, p).
Proof.
  intros [Hroot | [(root & obj & Hroot & Hobj & Hnarrow)
                  | (ct & immediate & (root & obj & Hroot & Hobj & Hct) & Hlist)]]
    Hfuel; unfold_cxx; rewrite Hroot; cbn.
  - reflexivity.
  - now rewrite Hobj, Hnarrow.
  - rewrite Hobj, Hct. cbn. rewrite Hlist. cbn.
    destruct fuel as [| fuel]; [lia | reflexivity].
Qed.

Lemma knownTasks_nothing_to_list_witness :
  CorbaAccess.knownTasks (Sample.registry []) 1 startup
  = (Raise invoked_nil, startup) /\
  CorbaAccess.knownTasks
    {| ORB_init := ORB_init (Sample.registry []);
       resolve_initial_references := resolve_initial_references (Sample.registry []);
       ORB_destroy := ORB_destroy (Sample.registry []);
       NamingContext_narrow := fun _ => Returns None;
       resolve := resolve (Sample.registry []);
       list_bindings := list_bindings (Sample.registry []);
       NamingContext_destroy := NamingContext_destroy (Sample.registry []);
       next_n := next_n (Sample.registry []);
       ControlTask_narrow := ControlTask_narrow (Sample.registry []);
       getName := getName (Sample.registry []) |}
    1 Sample.connected
  = (Raise invoked_nil, Sample.connected).
Proof.
  split.
  - apply (knownTasks_nothing_to_list (Sample.registry []) startup 1); [| lia].
    left. reflexivity.
  - apply (knownTasks_nothing_to_list _ Sample.connected 1); [| lia].
    right. left. exists Sample.name_service, (Some Sample.control_tasks).
    repeat split; reflexivity.
Defined.

(** X10.  An exception thrown by a call of [knownTasks] that comes before
    the loop (the lookup of [ControlTasks], its narrowing, [list]) leaves
    [knownTasks] unless it is [NotFound], in which case the empty list is
    returned; the process is unchanged either way. *)
Theorem knownTasks_exception_before_loop env p e fuel :
  raised_before_loop env p e ->
  CorbaAccess.knownTasks env fuel p
  = (if is_NotFound e then Ret [] else Raise e, p).
Proof.
  intros [Hres | (obj & Hres & [Hnarrow | (ct & Hnarrow & Hlist)])];
    unfold_cxx; rewrite Hres; cbn.
  - destruct (is_NotFound e); reflexivity.
  - rewrite Hnarrow. destruct (is_NotFound e); reflexivity.
  - rewrite Hnarrow. cbn. rewrite Hlist. destruct (is_NotFound e); reflexivity.
Qed.

Lemma knownTasks_exception_before_loop_witness :
  CorbaAccess.knownTasks Sample.out_of_memory 5 Sample.connected
  = (Raise (other_exception "std::bad_alloc"), Sample.connected).
Proof.
  apply (knownTasks_exception_before_loop Sample.out_of_memory Sample.connected
           (other_exception "std::bad_alloc") 5).
  left. reflexivity.
Defined.

(** X11.  When the iterator throws after handing out some pages,
    [knownTasks] returns the names of those pages if the exception is
    [NotFound] (the list is filled outside the [try]), and lets any other
    exception through, the names collected so far being dropped. *)
Theorem knownTasks_exception_in_loop env p ct immediate it pages e fuel :
  ControlTasks_is env p ct ->
  list_bindings env ct 0 = Returns (immediate, Some it) ->
  delivers_then env it 0 pages (Throws e) ->
  Forall (Forall named) pages ->
  length pages < fuel ->
  CorbaAccess.knownTasks env fuel p
  = (if is_NotFound e then Ret (map first_segment (concat pages)) else Raise e,
     p).
Proof.
  intros (root & obj & Hroot & Hobj & Hct) Hlist Hit Hnamed Hfuel.
  unfold_cxx. rewrite Hroot. cbn. rewrite Hobj, Hct. cbn. rewrite Hlist. cbn.
  rewrite (next_n_loop_delivers_then_throws env it pages e Hnamed 0 [] fuel Hit Hfuel).
  cbn. destruct (is_NotFound e); reflexivity.
Qed.

Lemma knownTasks_exception_in_loop_witness :
  CorbaAccess.knownTasks
    {| ORB_init := ORB_init (Sample.registry []);
       resolve_initial_references := resolve_initial_references (Sample.registry []);
       ORB_destroy := ORB_destroy (Sample.registry []);
       NamingContext_narrow := NamingContext_narrow (Sample.registry []);
       resolve := resolve (Sample.registry []);
       list_bindings := list_bindings (Sample.registry []);
       NamingContext_destroy := NamingContext_destroy (Sample.registry []);
       next_n :=
         fun _ k _ =>
           match k with
           | 0 => Returns (true, Sample.bindings 2)
           | _ => Throws (CORBA_Exception CORBA.NamingContext_NotFound)
           end;
       ControlTask_narrow := ControlTask_narrow (Sample.registry []);
       getName := getName (Sample.registry []) |}
    3 Sample.connected
  = (Ret ["A"; "B"], Sample.connected).
Proof.
  apply (knownTasks_exception_in_loop _ Sample.connected Sample.control_tasks []
           Sample.iterator [Sample.bindings 2]
           (CORBA_Exception CORBA.NamingContext_NotFound) 3).
  - exists Sample.name_service, (Some Sample.control_tasks).
    repeat split; reflexivity.
  - reflexivity.
  - split; reflexivity.
  - repeat constructor; discriminate.
  - simpl. lia.
Defined.

(** ** More on the lookup of one task *)

(** X12.  [findByName] ends in one of three ways: it returns a non-nil
    handle, it raises [IllegalServer], or it raises an exception that is not
    a CORBA exception and was thrown by one of its calls.  Its caller never
    sees a CORBA exception. *)
Theorem findByName_outcomes env name p :
  (exists t, fst (CorbaAccess.findByName env name p) = Ret (Some t)) \/
  fst (CorbaAccess.findByName env name p) = Raise (IllegalServer_exn IllegalServer) \/
  (exists e,
      is_CORBA_Exception e = false /\
      raised_during env p name e /\
      fst (CorbaAccess.findByName env name p) = Raise e).
Proof.
  assert (Hcatch : forall e,
             raised_during env p name e ->
             fst (findByName_catch e p) = Raise (IllegalServer_exn IllegalServer) \/
             (exists e',
                 is_CORBA_Exception e' = false /\
                 raised_during env p name e' /\
                 fst (findByName_catch e p) = Raise e')).
  { intros e He. destruct e as [c | i | d]; cbn.
    - left. reflexivity.
    - right. exists (IllegalServer_exn i). auto.
    - right. exists (other_exception d). auto. }
  rewrite findByName_paths. unfold raised_during in *.
  destruct (lookup env p name) as [obj | e] eqn:Hobj.
  - destruct (_narrow (ControlTask_narrow env) obj) as [[t |] | e] eqn:Ht.
    + destruct (getName env t) as [nm | e] eqn:Hnm.
      * left. exists t. reflexivity.
      * right. apply Hcatch. right. exists obj. split; [reflexivity |].
        right. exists t. auto.
    + right. left. reflexivity.
    + right. apply Hcatch. right. exists obj. auto.
  - right. apply Hcatch. left. reflexivity.
Qed.

(** X13.  A CORBA exception thrown by the lookup, by the narrowing or by
    [getName] is replaced by [IllegalServer], after two lines on [cerr], the
    second being the name of the CORBA exception. *)
Theorem findByName_transport_fault env name p c :
  raised_during env p name (CORBA_Exception c) ->
  CorbaAccess.findByName env name p
  = (Raise (IllegalServer_exn IllegalServer),
     log p [(cerr, "CORBA exception raised when resolving Object !");
            (cerr, CORBA._name c)]).
Proof.
  intros Hraised. rewrite findByName_paths.
  destruct Hraised as [H | [obj [Hobj [H | [t [Ht H]]]]]].
  - now rewrite H.
  - now rewrite Hobj, H.
  - now rewrite Hobj, Ht, H.
Qed.

Lemma findByName_transport_fault_witness :
  CorbaAccess.findByName (Sample.registry []) "alpha" startup
  = (Raise (IllegalServer_exn IllegalServer),
     log startup [(cerr, "CORBA exception raised when resolving Object !");
                  (cerr, "INV_OBJREF")]).
Proof.
  apply (findByName_transport_fault (Sample.registry []) "alpha" startup
           (CORBA.SystemException "INV_OBJREF")).
  left. reflexivity.
Defined.

(** X14.  When the name resolves to an object that narrows to nil,
    [findByName] writes its own diagnostic with the name, and then the line
    of the catch-all handler, which catches the [IllegalServer] thrown inside
    the [try] before it is rethrown. *)
Theorem findByName_wrong_type_lines env name p :
  narrows_to_nil env p name ->
  CorbaAccess.findByName env name p
  = (Raise (IllegalServer_exn IllegalServer),
     log p [(cerr, ("Failed to acquire ControlTaskServer '" ++ name ++ "'.")%string);
            (cerr, "Unknown Exception in CorbaAccess construction!")]).
Proof.
  intros (obj & Hobj & Hnil). rewrite findByName_paths. now rewrite Hobj, Hnil.
Qed.

Lemma findByName_wrong_type_lines_witness :
  CorbaAccess.findByName (Sample.registry []) "gamma" Sample.connected
  = (Raise (IllegalServer_exn IllegalServer),
     log Sample.connected
       [(cerr, "Failed to acquire ControlTaskServer 'gamma'.");
        (cerr, "Unknown Exception in CorbaAccess construction!")]).
Proof.
  apply (findByName_wrong_type_lines (Sample.registry []) "gamma" Sample.connected).
  exists (Some Sample.gamma). split; reflexivity.
Defined.

(** X15.  However it ends, [findByName] leaves both handles as they were
    and adds one or two lines to the output. *)
Theorem findByName_only_writes env name p :
  exists lines,
    snd (CorbaAccess.findByName env name p) = log p lines /\
    1 <= length lines <= 2.
Proof.
  assert (Hcatch : forall e,
             exists lines,
               snd (findByName_catch e p) = log p lines /\ 1 <= length lines <= 2).
  { intros e. destruct e; cbn; eexists; (split; [reflexivity | simpl; lia]). }
  rewrite findByName_paths.
  destruct (lookup env p name) as [obj | e]; [| apply Hcatch].
  destruct (_narrow (ControlTask_narrow env) obj) as [[t |] | e]; [| | apply Hcatch].
  - destruct (getName env t) as [nm | e]; [| apply Hcatch].
    eexists. split; [reflexivity | simpl; lia].
  - eexists. split; [reflexivity | simpl; lia].
Qed.

(** ** The driver *)

Section Driver_facts.

Variable env : Remote.
Variable getTaskState : nat -> outcome string.

(** With transport-level faults only, [DestroyOrb] returns and writes. *)
Lemma DestroyOrb_returns p :
  (forall r, transport_level (NamingContext_destroy env r)) ->
  (forall r, transport_level (ORB_destroy env r)) ->
  exists lines,
    CorbaAccess.DestroyOrb env p = (Ret tt, log p lines) /\ lines <> [].
Proof.
  intros Hroot Horb. rewrite DestroyOrb_paths.
  assert (Hr : transport_level (invoke (rootContext p) (NamingContext_destroy env)))
    by (destruct (rootContext p); [apply Hroot | reflexivity]).
  assert (Ho : transport_level (invoke (orb p) (ORB_destroy env)))
    by (destruct (orb p); [apply Horb | reflexivity]).
  destruct (invoke (rootContext p) (NamingContext_destroy env)) as [[] | e].
  - destruct (invoke (orb p) (ORB_destroy env)) as [[] | e].
    + eexists. split; [reflexivity | discriminate].
    + destruct e; try discriminate Ho. eexists. split; [reflexivity | discriminate].
  - destruct e; try discriminate Hr. eexists. split; [reflexivity | discriminate].
Qed.

(** [knownTasks] through a nil root context. *)
Lemma knownTasks_nil_root fuel p :
  rootContext p = None ->
  CorbaAccess.knownTasks env fuel p = (Raise invoked_nil, p).
Proof.
  intros Hroot. unfold_cxx. now rewrite Hroot.
Qed.

(** One turn of the loop on a task that answers. *)
Lemma print_state_reports p q name report :
  rootContext q = rootContext p ->
  task_answers env getTaskState p name report ->
  Driver.print_state env getTaskState name q
  = (Ret tt, log q (report_lines report)).
Proof.
  intros Hroot (obj & t & Hobj & Ht & Hnm & Hstate).
  unfold Driver.print_state, bind. rewrite findByName_paths.
  unfold lookup in *. rewrite Hroot, Hobj, Ht, Hnm.
  unfold call, put. cbn. rewrite Hstate. now rewrite log_log.
Qed.

(** The loop on tasks that all answer writes their reports in order. *)
Lemma for_each_name_reports p names reports :
  Forall2 (task_answers env getTaskState p) names reports ->
  forall q,
    rootContext q = rootContext p ->
    Driver.for_each_name env getTaskState names q
    = (Ret tt, log q (flat_map report_lines reports)).
Proof.
  induction 1 as [| name report names reports Hname _ IH]; intros q Hroot.
  - cbn. now rewrite log_nil.
  - cbn [Driver.for_each_name flat_map]. unfold bind at 1.
    rewrite (print_state_reports p q name report Hroot Hname).
    rewrite IH by exact Hroot. now rewrite log_log.
Qed.

(** The loop over a list in two parts is the loop over the first part
    followed by the loop over the second. *)
Lemma for_each_name_app names more p :
  Driver.for_each_name env getTaskState (names ++ more) p
  = (Driver.for_each_name env getTaskState names ;;
     Driver.for_each_name env getTaskState more) p.
Proof.
  revert p. induction names as [| name names IH]; intros p.
  - reflexivity.
  - cbn [Driver.for_each_name app]. unfold bind.
    destruct (Driver.print_state env getTaskState name p) as [[[] | e |] q];
      [| reflexivity | reflexivity].
    rewrite IH. reflexivity.
Qed.

End Driver_facts.

(** X16.  When the runtime starts and the naming-service reference is nil,
    [main] ends with the [IllegalServer] of [InitOrb]: the call is outside
    the [try], so nothing is listed and [DestroyOrb] does not run. *)
Theorem main_without_name_service env getTaskState fuel argv p o :
  CORBA.is_nil (orb p) = true ->
  ORB_init env argv "omniORB4" = Returns (Some o) ->
  resolve_initial_references env o "NameService" = Returns None ->
  Driver.main env getTaskState fuel argv p
  = (Raise (IllegalServer_exn IllegalServer),
     log {| orb := Some o; rootContext := None; output := output p |}
       [(cerr, "CorbaAccess could not acquire NameService.")]).
Proof.
  intros Hnil Hinit Hns. unfold Driver.main. unfold bind at 1.
  rewrite (InitOrb_paths env argv p (nil_orb p Hnil)), Hinit. cbn.
  now rewrite Hns.
Qed.

Lemma main_without_name_service_witness :
  Driver.main (Sample.orb_only (Returns None)) sample_getTaskState 5
    ["client"] startup
  = (Raise (IllegalServer_exn IllegalServer),
     log {| orb := Some Sample.the_orb; rootContext := None; output := [] |}
       [(cerr, "CorbaAccess could not acquire NameService.")]).
Proof.
  apply (main_without_name_service (Sample.orb_only (Returns None))
           sample_getTaskState 5 ["client"] startup Sample.the_orb);
    reflexivity.
Defined.

(** X17.  [main] drops the value of [InitOrb].  When [InitOrb] fails on a
    CORBA exception in a process whose handles were nil, [main] goes on to
    [knownTasks], whose call through the nil root context throws INV_OBJREF;
    the handler runs [DestroyOrb], which only logs, and INV_OBJREF leaves
    [main]. *)
Theorem main_after_failed_init env getTaskState fuel argv p c assigned :
  CORBA.is_nil (orb p) = true ->
  CORBA.is_nil (rootContext p) = true ->
  InitOrb_raised env argv p (CORBA_Exception c) assigned ->
  Driver.main env getTaskState fuel argv p
  = (Raise invoked_nil,
     log {| orb := assigned; rootContext := None; output := output p |}
       [(cerr, "Orb Init : CORBA exception raised!");
        (cerr, CORBA._name c);
        (cerr, "Orb destruction : CORBA exception raised!");
        (cerr, "INV_OBJREF")]).
Proof.
  intros Hnil Hroot Hraised.
  assert (Hinit : CorbaAccess.InitOrb env argv p
                  = (Ret false,
                     log {| orb := assigned; rootContext := None;
                            output := output p |}
                       [(cerr, "Orb Init : CORBA exception raised!");
                        (cerr, CORBA._name c)])).
  { rewrite (InitOrb_paths env argv p (nil_orb p Hnil)).
    assert (Hrc : rootContext p = None)
      by (destruct (rootContext p); [discriminate | reflexivity]).
    destruct Hraised as [[H ->] | [H [Hns | (rootObj & Hns & Hnarrow)]]];
      rewrite H.
    - cbn. rewrite <- Hrc. now rewrite same_process.
    - rewrite Hns. cbn. now rewrite Hrc.
    - rewrite Hns, Hnarrow. cbn. now rewrite Hrc. }
  unfold Driver.main, Driver.main_try, try_catch, bind. rewrite Hinit.
  rewrite knownTasks_nil_root by reflexivity.
  rewrite DestroyOrb_paths. cbn. now rewrite log_log.
Qed.

Lemma main_after_failed_init_witness :
  Driver.main Sample.no_name_service sample_getTaskState 5 ["client"] startup
  = (Raise invoked_nil,
     log {| orb := Some Sample.the_orb; rootContext := None; output := [] |}
       [(cerr, "Orb Init : CORBA exception raised!");
        (cerr, "TRANSIENT");
        (cerr, "Orb destruction : CORBA exception raised!");
        (cerr, "INV_OBJREF")]).
Proof.
  apply (main_after_failed_init Sample.no_name_service sample_getTaskState 5
           ["client"] startup (CORBA.SystemException "TRANSIENT")
           (Some Sample.the_orb)).
  - reflexivity.
  - reflexivity.
  - right. split; [reflexivity |]. left. reflexivity.
Defined.


(** X18.  Once [InitOrb] has returned, with [true] or with [false], [main]
    runs [DestroyOrb] on every way out of its [try] block (transport-level
    faults only at shutdown): after a normal completion it returns, after an
    exception it lets that same exception through, and in both cases the
    final state is the one [DestroyOrb] leaves. *)
Theorem main_always_shuts_down env getTaskState fuel argv p b p1 r p2 :
  CorbaAccess.InitOrb env argv p = (Ret b, p1) ->
  Driver.main_try env getTaskState fuel p1 = (r, p2) ->
  r <> OutOfFuel ->
  (forall x, transport_level (NamingContext_destroy env x)) ->
  (forall x, transport_level (ORB_destroy env x)) ->
  exists lines,
    CorbaAccess.DestroyOrb env p2 = (Ret tt, log p2 lines) /\
    lines <> [] /\
    Driver.main env getTaskState fuel argv p = (exit_of r, log p2 lines).
Proof.
  intros Hinit Htry Hfuel Hroot Horb.
  destruct (DestroyOrb_returns env p2 Hroot Horb) as (lines & Hdestroy & Hlines).
  exists lines. repeat split; [exact Hdestroy | exact Hlines |].
  unfold Driver.main, try_catch, bind, throw. rewrite Hinit, Htry.
  destruct r as [[] | e |]; [| | congruence]; now rewrite Hdestroy.
Qed.

Lemma main_always_shuts_down_witness :
  exists lines,
    CorbaAccess.DestroyOrb Sample.out_of_memory Sample.connected
    = (Ret tt, log Sample.connected lines) /\
    lines <> [] /\
    Driver.main Sample.out_of_memory sample_getTaskState 5 ["client"] startup
    = (exit_of (Raise (other_exception "std::bad_alloc")),
       log Sample.connected lines).
Proof.
  apply (main_always_shuts_down Sample.out_of_memory sample_getTaskState 5
           ["client"] startup true Sample.connected
           (Raise (other_exception "std::bad_alloc")) Sample.connected).
  - reflexivity.
  - reflexivity.
  - discriminate.
  - intros x. reflexivity.
  - intros x. exact I.
Defined.

(** X19.  When [ControlTasks] lists its bindings and the task bound under
    every listed name answers, the [try] block of [main] completes, having
    written for each task, in the order of the listing, the line of
    [findByName] and the state of the task. *)
Theorem main_try_reports_every_task env getTaskState fuel p ct pages reports :
  ControlTasks_is env p ct ->
  lists_in_pages env ct pages ->
  Forall named (concat pages) ->
  Forall2 (task_answers env getTaskState p)
    (map first_segment (concat pages)) reports ->
  length pages < fuel ->
  Driver.main_try env getTaskState fuel p
  = (Ret tt, log p (flat_map report_lines reports)).
Proof.
  intros Hct Hpages Hnamed Hanswers Hfuel.
  apply Forall_concat in Hnamed.
  unfold Driver.main_try, bind.
  rewrite (knownTasks_pages env p ct pages fuel Hct Hpages Hnamed Hfuel).
  now apply for_each_name_reports with (p := p).
Qed.

Lemma main_try_reports_every_task_witness :
  Driver.main_try
    (Sample.registry [[Sample.task_binding "alpha"; Sample.task_binding "beta"]])
    sample_getTaskState 5 Sample.connected
  = (Ret tt,
     log Sample.connected
       (flat_map report_lines [("alpha", "Running"); ("beta", "Stopped")])).
Proof.
  apply (main_try_reports_every_task _ sample_getTaskState 5 Sample.connected
           Sample.control_tasks
           [[Sample.task_binding "alpha"; Sample.task_binding "beta"]]
           [("alpha", "Running"); ("beta", "Stopped")]).
  - exists Sample.name_service, (Some Sample.control_tasks).
    repeat split; reflexivity.
  - exists [], Sample.iterator. split; [reflexivity |].
    split; [reflexivity |]. exists []. reflexivity.
  - repeat constructor; discriminate.
  - constructor.
    + exists (Some Sample.alpha), Sample.alpha. repeat split; reflexivity.
    + constructor; [| constructor].
      exists (Some Sample.beta), Sample.beta. repeat split; reflexivity.
  - simpl. lia.
Defined.

(** X20.  The loop of [main] stops at the first name whose turn ends in an
    exception: the tasks before it have been reported, the exception leaves
    the loop, and the names after it are not looked up. *)
Theorem for_each_name_stops_at_first_failure
  env getTaskState p before reports bad after e q :
  Forall2 (task_answers env getTaskState p) before reports ->
  Driver.print_state env getTaskState bad (log p (flat_map report_lines reports))
  = (Raise e, q) ->
  Driver.for_each_name env getTaskState (before ++ bad :: after) p = (Raise e, q).
Proof.
  intros Hbefore Hbad. rewrite for_each_name_app. unfold bind at 1.
  rewrite (for_each_name_reports env getTaskState p before reports Hbefore p eq_refl).
  cbn [Driver.for_each_name]. unfold bind. now rewrite Hbad.
Qed.

Lemma for_each_name_stops_at_first_failure_witness :
  Driver.for_each_name (Sample.registry []) sample_getTaskState
    (["alpha"] ++ "gamma" :: ["beta"]) Sample.connected
  = (Raise (IllegalServer_exn IllegalServer),
     log Sample.connected
       [(cout, "Successfully connected to ControlTaskServer 'alpha'.");
        (cout, "Running");
        (cerr, "Failed to acquire ControlTaskServer 'gamma'.");
        (cerr, "Unknown Exception in CorbaAccess construction!")]).
Proof.
  apply (for_each_name_stops_at_first_failure (Sample.registry [])
           sample_getTaskState Sample.connected ["alpha"] [("alpha", "Running")]
           "gamma" ["beta"]).
  - constructor; [| constructor].
    exists (Some Sample.alpha), Sample.alpha. repeat split; reflexivity.
  - reflexivity.
Defined.

(** X21.  End to end: from a process with a nil transport handle, against a
    runtime that starts, a naming service that resolves and narrows, a
    [ControlTasks] context that lists its bindings and tasks that all answer,
    [main] returns normally; its output is the line of [InitOrb], the two
    lines of every task in listing order, and the lines of [DestroyOrb]. *)
Theorem main_reports_and_shuts_down
  env getTaskState fuel argv p o obj root ct pages reports :
  CORBA.is_nil (orb p) = true ->
  ORB_init env argv "omniORB4" = Returns (Some o) ->
  resolve_initial_references env o "NameService" = Returns (Some obj) ->
  NamingContext_narrow env obj = Returns (Some root) ->
  ControlTasks_is env (initialised p o root) ct ->
  lists_in_pages env ct pages ->
  Forall named (concat pages) ->
  Forall2 (task_answers env getTaskState (initialised p o root))
    (map first_segment (concat pages)) reports ->
  length pages < fuel ->
  (forall x, transport_level (NamingContext_destroy env x)) ->
  (forall x, transport_level (ORB_destroy env x)) ->
  exists lines,
    lines <> [] /\
    Driver.main env getTaskState fuel argv p
    = (Ret tt,
       log (initialised p o root) (flat_map report_lines reports ++ lines)).
Proof.
  intros Hnil Hinit Hns Hnarrow Hct Hpages Hnamed Hanswers Hfuel Hroot Horb.
  assert (Hstart : CorbaAccess.InitOrb env argv p
                   = (Ret true, initialised p o root)).
  { rewrite (InitOrb_paths env argv p (nil_orb p Hnil)), Hinit. cbn.
    rewrite Hns. cbn. now rewrite Hnarrow. }
  apply Forall_concat in Hnamed.
  destruct (DestroyOrb_returns env
              (log (initialised p o root) (flat_map report_lines reports))
              Hroot Horb) as (lines & Hdestroy & Hlines).
  exists lines. split; [exact Hlines |].
  unfold Driver.main, Driver.main_try, try_catch, bind. rewrite Hstart.
  rewrite (knownTasks_pages env _ ct pages fuel Hct Hpages Hnamed Hfuel).
  rewrite (for_each_name_reports env getTaskState (initialised p o root)
             _ reports Hanswers _ eq_refl).
  rewrite Hdestroy. now rewrite log_log.
Qed.

Lemma main_reports_and_shuts_down_witness :
  exists lines,
    lines <> [] /\
    Driver.main
      (Sample.registry [[Sample.task_binding "alpha"; Sample.task_binding "beta"]])
      sample_getTaskState 5 ["client"] startup
    = (Ret tt,
       log (initialised startup Sample.the_orb Sample.name_service)
         (flat_map report_lines [("alpha", "Running"); ("beta", "Stopped")]
          ++ lines)).
Proof.
  apply (main_reports_and_shuts_down _ sample_getTaskState 5 ["client"] startup
           Sample.the_orb Sample.name_service Sample.name_service
           Sample.control_tasks
           [[Sample.task_binding "alpha"; Sample.task_binding "beta"]]
           [("alpha", "Running"); ("beta", "Stopped")]).
  - reflexivity.
  - reflexivity.
  - reflexivity.
  - reflexivity.
  - exists Sample.name_service, (Some Sample.control_tasks).
    repeat split; reflexivity.
  - exists [], Sample.iterator. split; [reflexivity |].
    split; [reflexivity |]. exists []. reflexivity.
  - repeat constructor; discriminate.
  - constructor.
    + exists (Some Sample.alpha), Sample.alpha. repeat split; reflexivity.
    + constructor; [| constructor].
      exists (Some Sample.beta), Sample.beta. repeat split; reflexivity.
  - simpl. lia.
  - intros x. reflexivity.
  - intros x. exact I.
Defined.


(** ** Names with a NUL character, and the empty context *)

(** A name without NUL is its own C string. *)
Lemma c_str_without_NUL s :
  (forall c, In c (list_ascii_of_string s) -> c <> Ascii.zero) ->
  c_str s = s.
Proof.
  induction s as [| c s IH]; intros Hs; simpl; [reflexivity |].
  destruct (Ascii.eqb_spec c Ascii.zero) as [-> | _].
  - exfalso. apply (Hs Ascii.zero); [left |]; reflexivity.
  - rewrite IH; [reflexivity |].
    intros c' Hc'. apply Hs. right. exact Hc'.
Qed.

(** The registry is asked for the name up to its first NUL; the whole name
    goes into the diagnostics only. *)
Example findByName_alpha_NUL_x :
  c_str Sample.alpha_NUL_x = "alpha" /\
  CorbaAccess.findByName (Sample.registry []) Sample.alpha_NUL_x Sample.connected
  = (Ret (Some Sample.alpha),
     log Sample.connected
       [(cout, "Successfully connected to ControlTaskServer 'alpha'.")]).
Proof. split; reflexivity. Qed.

(** C6, where the code departs from it.  [ControlTasks] exists and holds no
    binding, and its [list] answers with an empty list and a nil iterator:
    [knownTasks] calls [next_n] through the nil iterator without a nil test,
    and the INV_OBJREF of that call, which is not the [NotFound] it catches,
    leaves it; no empty list is returned. *)
Theorem knownTasks_empty_context_nil_iterator :
  ControlTasks_is Sample.empty_context Sample.connected Sample.control_tasks /\
  list_bindings Sample.empty_context Sample.control_tasks 0 = Returns ([], None) /\
  forall fuel,
    0 < fuel ->
    CorbaAccess.knownTasks Sample.empty_context fuel Sample.connected
    = (Raise invoked_nil, Sample.connected) /\
    CorbaAccess.knownTasks Sample.empty_context fuel Sample.connected
    <> (Ret [], Sample.connected).
Proof.
  split; [| split].
  - exists Sample.name_service, (Some Sample.control_tasks).
    repeat split; reflexivity.
  - reflexivity.
  - intros [| fuel] Hfuel; [lia |]. split; [reflexivity | discriminate].
Qed.
